(** * PDF-Restructure: classification and routing pipeline

    A shallow embedding of [Sorting program/Conversion & Sort 0.0.1.py]
    (direct-save mode) and [Sorting program/Conversion & Sort 0.0.2.py]
    (assembled-document mode), and the properties of its specification
    checked against it.

    Conventions of the embedding:
    - a Python [dict] whose iteration order matters ([templates],
      [company_images]) is an association list in insertion order; a [dict]
      whose order does not show ([regex_patterns], [extracted_info]) is a
      [gmap];
    - a Python exception is a value [Raise e] of the [result] type;
    - coordinates and the similarity quotient are exact rationals [Q]
      (Python computes them in binary floating point; the comparisons
      the code makes are read over the exact values);
    - the worker threads of [ThreadPoolExecutor] are an interleaving
      semantics: one step of one thread at a time, chosen by a schedule;
    - the disk is the set of the folders that exist and a map from paths to
      the images written; whether a folder may be created or a file written
      is a parameter [permitted]. *)

From Stdlib Require Import QArith Qabs DecimalString.
From Stdlib Require DecimalNat.
From stdpp Require Import list strings gmap sorting.

Local Open Scope nat_scope.

(** ** Exceptions *)

Inductive exn : Type :=
  | ZeroDivisionError
  | FileNotFoundError
  | JSONDecodeError
  | OSError.

Inductive result (A : Type) : Type :=
  | Ok (a : A)
  | Raise (e : exn).
Arguments Ok {A} a.
Arguments Raise {A} e.

Global Instance result_ret : MRet result := fun _ a => Ok a.
Global Instance result_bind : MBind result := fun _ _ k r =>
  match r with
  | Ok a => k a
  | Raise e => Raise e
  end.

(** ** Strings: Python's [keyword in text] *)

Fixpoint startswith (kw s : string) : bool :=
  match kw, s with
  | EmptyString, _ => true
  | String a kw', String b s' => if decide (a = b) then startswith kw' s' else false
  | String _ _, EmptyString => false
  end.

(** [contains kw s] is Python's [kw in s] on strings. *)
Fixpoint contains (kw s : string) : bool :=
  startswith kw s ||
  match s with
  | EmptyString => false
  | String _ s' => contains kw s'
  end.

(** ** Templates and layout features *)

(** One entry of [extract_layout_features]: a block's stripped text and its
    bounding box [(x0, y0, x1, y1)]. *)
Record feature : Type := {
  text : string;
  bounding_box : Q * Q * Q * Q
}.

(** [box[0]] and [box[1]]: the top-left corner. *)
Definition box_0 (box : Q * Q * Q * Q) : Q := let '(x0, _, _, _) := box in x0.
Definition box_1 (box : Q * Q * Q * Q) : Q := let '(_, y0, _, _) := box in y0.

(** One value of the template dictionary.  [layout_features] is an optional
    key ([None] when the key is absent). *)
Record rules : Type := {
  header_keywords : list string;
  layout_features : option (list feature);
  regex_patterns : gmap string string
}.

(** The template dictionary, in declaration order. *)
Abbreviation templates_t := (list (string * rules)).

Definition Qltb (x y : Q) : bool := negb (Qle_bool y x).

(** ** [compare_layouts] (0.0.2, lines 61-68) *)

(** The test of line 66. *)
Definition corner_close (feature1 feature2 : feature) : bool :=
  let box1 := bounding_box feature1 in
  let box2 := bounding_box feature2 in
  Qltb (Qabs (box_0 box1 - box_0 box2)) 10 &&
  Qltb (Qabs (box_1 box1 - box_1 box2)) 10.

(** Python's [n / m] on two non-negative [int]s. *)
Definition truediv (n m : nat) : result Q :=
  match m with
  | O => Raise ZeroDivisionError
  | S _ => Ok (Z.of_nat n # Pos.of_nat m)
  end.

Definition compare_layouts (features1 features2 : list feature) : result Q :=
  let similarity :=
    fold_left
      (fun similarity '(feature1, feature2) =>
         if corner_close feature1 feature2 then similarity + 1 else similarity)
      (zip features1 features2) 0 in
  truediv similarity (Nat.max (length features1) (length features2)).

(** The similarity as the specification words it: the pairs, zipped by
    position up to the shorter of the two sequences, whose top-left corners
    are less than 10 units apart in each axis. *)
Definition similar_pairs (features1 features2 : list feature) : nat :=
  let shorter := Nat.min (length features1) (length features2) in
  length (filter (fun p => corner_close p.1 p.2 = true)
                 (zip (take shorter features1) (take shorter features2))).

(** Whether some header keyword occurs in the text. *)
Definition keyword_occurs (text : string) (r : rules) : Prop :=
  exists keyword pre post,
    keyword ∈ header_keywords r /\ text = pre +:+ keyword +:+ post.

(** The similarity as the specification defines it, 0 on two empty
    sequences included. *)
Definition layout_similarity (features1 features2 : list feature) : Q :=
  match Nat.max (length features1) (length features2) with
  | O => 0
  | S _ as longer => Z.of_nat (similar_pairs features1 features2) # Pos.of_nat longer
  end.

(** The match condition of a template as the specification words it. *)
Definition template_matches (text : string) (layout_feats : list feature)
    (r : rules) : Prop :=
  keyword_occurs text r \/
  exists template_features,
    layout_features r = Some template_features /\
    (8 # 10 < layout_similarity layout_feats template_features)%Q.

(** The same condition, decided. *)
Definition template_matchesb (text : string) (layout_feats : list feature)
    (r : rules) : bool :=
  existsb (fun keyword => contains keyword text) (header_keywords r) ||
  match layout_features r with
  | Some template_features =>
      Qltb (8 # 10) (layout_similarity layout_feats template_features)
  | None => false
  end.

(** The inputs on which line 68 divides by zero. *)
Definition division_fails (layout_feats : list feature) (r : rules) : Prop :=
  layout_feats = [] /\ layout_features r = Some [].

(** A template is passed over when its condition is computed and is false. *)
Definition passed_over (text : string) (layout_feats : list feature)
    (cr : string * rules) : Prop :=
  ¬ division_fails layout_feats cr.2 /\ ¬ template_matches text layout_feats cr.2.

(** ** [identify_page] (0.0.2, lines 71-80) *)

Fixpoint identify_page (text : string) (layout_feats : list feature)
    (templates : templates_t) : result (option string) :=
  match templates with
  | [] => Ok None
  | (company, rules) :: templates' =>
      let text_match :=
        existsb (fun keyword => contains keyword text) (header_keywords rules) in
      layout_similarity ←
        match layout_features rules with
        | Some template_features => compare_layouts layout_feats template_features
        | None => Ok 0%Q
        end;
      if text_match || Qltb (8 # 10) layout_similarity
      then Ok (Some company)
      else identify_page text layout_feats templates'
  end.

(** ** [identify_company] (0.0.1, lines 55-59) *)

Fixpoint identify_company (text : string) (templates : templates_t) : option string :=
  match templates with
  | [] => None
  | (company, rules) :: templates' =>
      if existsb (fun keyword => contains keyword text) (header_keywords rules)
      then Some company
      else identify_company text templates'
  end.

(** ** Insertion-ordered dictionaries *)

(** [d.get(k)] / [k in d] / [d[k]]. *)
Fixpoint dict_get {V : Type} (d : list (string * V)) (k : string) : option V :=
  match d with
  | [] => None
  | (k', v) :: d' => if decide (k' = k) then Some v else dict_get d' k
  end.

(** [d[k] = v]: an existing key keeps its position, a new key goes last. *)
Fixpoint dict_set {V : Type} (d : list (string * V)) (k : string) (v : V)
    : list (string * V) :=
  match d with
  | [] => [(k, v)]
  | (k', v') :: d' =>
      if decide (k' = k) then (k, v) :: d' else (k', v') :: dict_set d' k v
  end.

(** ** [load_templates] (both versions) *)

(** What [open(json_path)] followed by [json.load] finds. *)
Inductive template_source : Type :=
  | Missing
  | Malformed
  | WellFormed (t : templates_t).

(** The body of the [try] block. *)
Definition open_and_load (source : template_source) : result templates_t :=
  match source with
  | Missing => Raise FileNotFoundError
  | Malformed => Raise JSONDecodeError
  | WellFormed t => Ok t
  end.

Definition load_templates (source : template_source) : result templates_t :=
  match open_and_load source with
  | Raise FileNotFoundError => Ok []
  | r => r
  end.

(** [str(n)] for a non-negative [int]. *)
Definition str (n : nat) : string := NilEmpty.string_of_uint (Nat.to_uint n).

(** ** Version 0.0.1: direct-save mode *)

Module V1.

(** [re_search pattern text] stands for [re.search(pattern, text)] followed
    by [match.group() if match else None]: the full text of the first match,
    or [None]. *)
Abbreviation regex_engine := (string -> string -> option string).

(** [extract_data] (lines 62-68). *)
Definition extract_data (re_search : regex_engine) (text : string)
    (templates : templates_t) (company : option string)
    : gmap string (option string) :=
  match company ≫= dict_get templates with
  | Some rules =>
      map_fold
        (fun key pattern extracted_info =>
           <[key := re_search pattern text]> extracted_info)
        ∅ (regex_patterns rules)
  | None => ∅
  end.

(** Line 93. *)
Definition order_number_of (extracted_data : gmap string (option string))
    : option string :=
  if decide (extracted_data = ∅) then None
  else mjoin (extracted_data !! "Order Number").

(** Line 94. *)
Definition file_name_of (order_number : option string) (page_number : nat)
    : string :=
  match order_number with
  | Some o => if decide (o = "") then "page_" +:+ str (page_number + 1) +:+ ".png"
              else o +:+ ".png"
  | None => "page_" +:+ str (page_number + 1) +:+ ".png"
  end.

(** [process_page] (lines 71-112).  [images] is the outcome of
    [convert_from_path], each image standing for the text the OCR reads
    on it.  The result is the image written, as (category folder, file
    name), or [None] when nothing is written. *)
Definition process_page (re_search : regex_engine) (templates : templates_t)
    (page_number : nat) (images : result (list string))
    : option (string * string) :=
  match images with
  | Raise _ => None
  | Ok images =>
      match images !! page_number with
      | None => None
      | Some ocr_text =>
          let company := identify_company ocr_text templates in
          let extracted_data := extract_data re_search ocr_text templates company in
          let order_number := order_number_of extracted_data in
          let file_name := file_name_of order_number page_number in
          match company with
          | Some c => if decide (c = "") then None else Some (c, file_name)
          | None => None
          end
      end
  end.

End V1.

(** ** Version 0.0.2: assembled-document mode *)

Module V2.

(** The rasterised page [img_page] of the [img_doc]-th selected file
    ([convert_from_path(pdf_path)[page_number]], resized). *)
Record image : Type := { img_doc : nat; img_page : nat }.

(** What the extraction of lines 86-99 yields for a page: an exception of
    [fitz] or [pdf2image], or the text and the layout features. *)
Inductive page : Type :=
  | Unreadable
  | Readable (text : string) (layout_feats : list feature).

Abbreviation document := (list page).

(** The shared [company_images] dictionary: list objects live in [heap],
    the dictionary maps a company to the address of its list. *)
Record store : Type := {
  heap : list (list image);
  company_images : list (string * nat)
}.

(** Where a [process_page] call stands.  Between two of these points the
    call touches no shared object. *)
Inductive worker : Type :=
  | Start (page_number : nat) (pdf_path : nat) (pg : page)
  | Check (company : string) (im : image)
  | Create (company : string) (im : image)
  | Load (company : string) (im : image)
  | Append (addr : nat) (im : image)
  | Done.

(** Lines 86-101: extraction, classification, and the test [if company]. *)
Definition classify (templates : templates_t) (pg : page) : option string :=
  match pg with
  | Unreadable => None
  | Readable text layout_feats =>
      match identify_page text layout_feats templates with
      | Ok (Some company) => if decide (company = "") then None else Some company
      | Ok None => None
      | Raise _ => None
      end
  end.

(** One step of a [process_page] call (lines 83-112); [None] when the call
    has returned. *)
Definition process_page (templates : templates_t) (w : worker) (st : store)
    : option (worker * store) :=
  match w with
  | Start page_number pdf_path pg =>
      match classify templates pg with
      | Some company =>
          Some (Check company {| img_doc := pdf_path; img_page := page_number |}, st)
      | None => Some (Done, st)
      end
  | Check company im =>
      match dict_get (company_images st) company with
      | None => Some (Create company im, st)
      | Some _ => Some (Load company im, st)
      end
  | Create company im =>
      Some (Load company im,
            {| heap := heap st ++ [[]];
               company_images :=
                 dict_set (company_images st) company (length (heap st)) |})
  | Load company im =>
      match dict_get (company_images st) company with
      | Some addr => Some (Append addr im, st)
      | None => Some (Done, st)
      end
  | Append addr im =>
      match heap st !! addr with
      | Some images =>
          Some (Done,
                {| heap := <[addr := images ++ [im]]> (heap st);
                   company_images := company_images st |})
      | None => Some (Done, st)
      end
  | Done => None
  end.

(** [create_company_pdfs] (lines 115-131).  [writable company] tells whether
    the folder and the files of [company] can be written; the first
    category that cannot raises out of the loop.  The result is the list
    of documents written, and the exception if any. *)
Fixpoint create_company_pdfs (writable : string -> bool)
    (company_images : list (string * list image))
    : list (string * list image) * option exn :=
  match company_images with
  | [] => ([], None)
  | (company, images) :: rest =>
      if writable company then
        let '(written, e) := create_company_pdfs writable rest in
        ((company, images) :: written, e)
      else ([], Some OSError)
  end.

(** The dictionary as [create_company_pdfs] reads it. *)
Definition buckets (st : store) : list (string * list image) :=
  (fun '(company, addr) => (company, default [] (heap st !! addr)))
    <$> company_images st.

(** The state of a [process_files] call (lines 134-157). *)
Record config : Type := {
  pdf_file_paths : list document;   (* files the outer loop has not reached *)
  next_doc : nat;                   (* their index in the selection *)
  tasks : list worker;              (* the calls of the current [executor.map] *)
  yielded : nat;                    (* results the inner loop has consumed *)
  shared : store;
  total_pages : nat;
  completed_pages : nat;
  progress_var : list Q;            (* values passed to [set], latest first *)
  finished : option (list (string * list image) * option exn)
}.

Definition init (docs : list document) : config :=
  {| pdf_file_paths := docs; next_doc := 0; tasks := []; yielded := 0;
     shared := {| heap := []; company_images := [] |};
     total_pages := sum_list (length <$> docs);
     completed_pages := 0; progress_var := []; finished := None |}.

(** One step of the thread that runs [process_files]. *)
Definition main_step (writable : string -> bool) (c : config) : option config :=
  match finished c with
  | Some _ => None
  | None =>
      if decide (yielded c < length (tasks c)) then
        match tasks c !! yielded c with
        | Some Done =>
            (* lines 150-151 *)
            let completed := completed_pages c + 1 in
            match truediv completed (total_pages c) with
            | Ok fraction =>
                Some {| pdf_file_paths := pdf_file_paths c; next_doc := next_doc c;
                        tasks := tasks c; yielded := yielded c + 1;
                        shared := shared c; total_pages := total_pages c;
                        completed_pages := completed;
                        progress_var := (fraction * 100)%Q :: progress_var c;
                        finished := None |}
            | Raise e =>
                (* line 156 *)
                Some {| pdf_file_paths := pdf_file_paths c; next_doc := next_doc c;
                        tasks := tasks c; yielded := yielded c;
                        shared := shared c; total_pages := total_pages c;
                        completed_pages := completed;
                        progress_var := progress_var c;
                        finished := Some ([], Some e) |}
            end
        | _ => None
        end
      else
        match pdf_file_paths c with
        | doc :: rest =>
            (* lines 143-149: the next file is dispatched *)
            Some {| pdf_file_paths := rest; next_doc := next_doc c + 1;
                    tasks := imap (fun page_number pg => Start page_number (next_doc c) pg) doc;
                    yielded := 0;
                    shared := shared c; total_pages := total_pages c;
                    completed_pages := completed_pages c;
                    progress_var := progress_var c;
                    finished := None |}
        | [] =>
            (* line 154 *)
            Some {| pdf_file_paths := []; next_doc := next_doc c;
                    tasks := tasks c; yielded := yielded c;
                    shared := shared c; total_pages := total_pages c;
                    completed_pages := completed_pages c;
                    progress_var := progress_var c;
                    finished := Some (create_company_pdfs writable (buckets (shared c))) |}
        end
  end.

Definition worker_step (templates : templates_t) (i : nat) (c : config)
    : option config :=
  w ← tasks c !! i;
  '(w', st) ← process_page templates w (shared c);
  Some {| pdf_file_paths := pdf_file_paths c; next_doc := next_doc c;
          tasks := <[i := w']> (tasks c); yielded := yielded c;
          shared := st; total_pages := total_pages c;
          completed_pages := completed_pages c;
          progress_var := progress_var c;
          finished := finished c |}.

(** Which thread moves next. *)
Inductive action : Type :=
  | Main
  | Worker (i : nat).

Definition step (templates : templates_t) (writable : string -> bool)
    (a : action) (c : config) : option config :=
  match a with
  | Main => main_step writable c
  | Worker i => worker_step templates i c
  end.

(** A run under a schedule; [None] when the schedule asks a thread to move
    that cannot (a returned call, the main thread waiting for a result). *)
Fixpoint run (templates : templates_t) (writable : string -> bool)
    (sched : list action) (c : config) : option config :=
  match sched with
  | [] => Some c
  | a :: sched' => step templates writable a c ≫= run templates writable sched'
  end.

(** [process_files] from the selected files and the template source.
    [Raise e] stands for a call that [load_templates] leaves with [e]: the
    handler of line 156 logs it and no page is dispatched. *)
Definition process_files (source : template_source) (writable : string -> bool)
    (docs : list document) (sched : list action) : result (option config) :=
  templates ← load_templates source;
  Ok (run templates writable sched (init docs)).

(** *** Invariants of a run *)

Definition page_at (docs : list document) (d i : nat) : option page :=
  docs !! d ≫= (.!! i).

(** The image is that of a page of the selection which the classifier
    assigns to a category. *)
Definition routed (templates : templates_t) (docs : list document)
    (im : image) : Prop :=
  exists pg company,
    page_at docs (img_doc im) (img_page im) = Some pg /\
    classify templates pg = Some company.

(** A call dispatched for the file before [nd] works on a page of it. *)
Definition worker_ok (templates : templates_t) (docs : list document)
    (nd : nat) (w : worker) : Prop :=
  match w with
  | Start page_number pdf_path pg =>
      S pdf_path = nd /\ page_at docs pdf_path page_number = Some pg
  | Check _ im | Create _ im | Load _ im | Append _ im =>
      S (img_doc im) = nd /\ routed templates docs im
  | Done => True
  end.

(** Document-enumeration order. *)
Definition doc_order (images : list image) : Prop :=
  StronglySorted (fun a b => img_doc a <= img_doc b) images.

Definition bucket_ok (templates : templates_t) (docs : list document)
    (nd : nat) (images : list image) : Prop :=
  doc_order images /\
  Forall (fun im => img_doc im < nd /\ routed templates docs im) images.

(** The percentages reported after [n] pages out of [total], latest first. *)
Definition reported (total n : nat) : list Q :=
  (fun k => ((Z.of_nat k # Pos.of_nat total) * 100)%Q) <$> reverse (seq 1 n).

Record invariant (templates : templates_t) (writable : string -> bool)
    (docs : list document) (c : config) : Prop := {
  inv_docs : pdf_file_paths c = drop (next_doc c) docs;
  inv_total : total_pages c = sum_list (length <$> docs);
  inv_count :
    completed_pages c + (length (tasks c) - yielded c)
    + sum_list (length <$> pdf_file_paths c) = total_pages c;
  inv_yielded : yielded c <= length (tasks c);
  inv_done : forall i, i < yielded c -> tasks c !! i = Some Done;
  inv_progress : progress_var c = reported (total_pages c) (completed_pages c);
  inv_workers : Forall (worker_ok templates docs (next_doc c)) (tasks c);
  inv_heap : Forall (bucket_ok templates docs (next_doc c)) (heap (shared c));
  inv_finished :
    forall out, finished c = Some out ->
      yielded c = length (tasks c) /\ pdf_file_paths c = [] /\
      out = create_company_pdfs writable (buckets (shared c))
}.

(** *** Termination *)

(** The steps a call has left, at most. *)
Definition worker_steps (w : worker) : nat :=
  match w with
  | Start _ _ _ => 5
  | Check _ _ => 4
  | Create _ _ => 3
  | Load _ _ => 2
  | Append _ _ => 1
  | Done => 0
  end.

Definition measure (c : config) : nat :=
  match finished c with
  | Some _ => 0
  | None =>
      1 + sum_list (worker_steps <$> tasks c) + (length (tasks c) - yielded c)
      + sum_list ((fun doc => 1 + 6 * length doc) <$> pdf_file_paths c)
  end.

(** The schedule of a pool with one thread: the first call that has not
    returned runs; the main thread moves when all have. *)
Definition returned (w : worker) : bool :=
  match w with Done => true | _ => false end.

Definition pick (c : config) : action :=
  match list_find (fun w => returned w = false) (tasks c) with
  | Some (i, _) => Worker i
  | None => Main
  end.

Fixpoint run_in_order (templates : templates_t) (writable : string -> bool)
    (fuel : nat) (c : config) : config :=
  match fuel with
  | O => c
  | S fuel' =>
      match step templates writable (pick c) c with
      | Some c' => run_in_order templates writable fuel' c'
      | None => c
      end
  end.

(** *** Runs whose calls return in page order *)

(** Document-enumeration order, then ascending page index. *)
Definition page_before (a b : image) : Prop :=
  img_doc a < img_doc b \/ (img_doc a = img_doc b /\ img_page a < img_page b).

Definition page_order (images : list image) : Prop :=
  StronglySorted page_before images.

Definition started (w : worker) : bool :=
  match w with Start _ _ _ => false | _ => true end.

(** The call at position [i] of the tasks of the file before [nd] works on
    page [i] of that file. *)
Definition worker_at (nd i : nat) (w : worker) : Prop :=
  match w with
  | Start page_number pdf_path _ => page_number = i /\ S pdf_path = nd
  | Check _ im | Create _ im | Load _ im | Append _ im =>
      img_page im = i /\ S (img_doc im) = nd
  | Done => True
  end.

(** The image comes from a file done with, or from a call of the current
    file that has returned. *)
Definition appended (c : config) (im : image) : Prop :=
  S (img_doc im) < next_doc c \/
  (S (img_doc im) = next_doc c /\ tasks c !! img_page im = Some Done).

Record in_order (c : config) : Prop := {
  io_tasks :
    forall i j wi wj, i < j ->
      tasks c !! i = Some wi -> tasks c !! j = Some wj ->
      wi = Done \/ started wj = false;
  io_workers : forall i w, tasks c !! i = Some w -> worker_at (next_doc c) i w;
  io_heap :
    Forall (fun images => page_order images /\ Forall (appended c) images)
      (heap (shared c))
}.

End V2.

(** ** Sample inputs *)

Module Samples.

(** [{"header_keywords": ["Acme"], "layout_features": []}] *)
Definition acme : rules :=
  {| header_keywords := ["Acme"]; layout_features := Some []; regex_patterns := ∅ |}.

(** [{"header_keywords": ["Beta"]}] *)
Definition beta : rules :=
  {| header_keywords := ["Beta"]; layout_features := None; regex_patterns := ∅ |}.

Definition block (s : string) (x0 y0 : Q) : feature :=
  {| text := s; bounding_box := (x0, y0, x0 + 100, y0 + 20)%Q |}.

Definition page_blocks : list feature :=
  [block "Invoice" 10 10; block "Total" 10 700].

Definition reference_blocks : list feature := [block "INVOICE" 12 15].

(** A regular-expression engine for patterns without metacharacters: the
    pattern matches its own text. *)
Definition literal_search : V1.regex_engine :=
  fun pattern text => if contains pattern text then Some pattern else None.

(** [{"Acme": {"header_keywords": ["Acme"],
               "regex_patterns": {"Order Number": "PO-"}}}] *)
Definition acme_orders : templates_t :=
  [("Acme",
    {| header_keywords := ["Acme"]; layout_features := None;
       regex_patterns := {["Order Number" := "PO-"]} |})].

(** [{"X": {"header_keywords": ["Invoice"]}}] *)
Definition invoices : templates_t :=
  [("X", {| header_keywords := ["Invoice"]; layout_features := None;
            regex_patterns := ∅ |})].

(** Two files of 3 and 2 pages, every page matched to ["X"]. *)
Definition two_documents : list V2.document :=
  [[V2.Readable "Invoice 1" [block "Invoice 1" 10 10];
    V2.Readable "Invoice 2" [block "Invoice 2" 10 10];
    V2.Readable "Invoice 3" [block "Invoice 3" 10 10]];
   [V2.Readable "Invoice 4" [block "Invoice 4" 10 10];
    V2.Readable "Invoice 5" [block "Invoice 5" 10 10]]].


(** One file: an invoice, then a page no template matches. *)
Definition mixed_document : list V2.document :=
  [[V2.Readable "Invoice 1" [block "Invoice 1" 10 10];
    V2.Readable "Cover letter" [block "Cover letter" 40 60]]].

Definition calls (i n : nat) : list V2.action := replicate n (V2.Worker i).

(** The calls of each file return in page order. *)
Definition in_page_order : list V2.action :=
  [V2.Main] ++ calls 0 5 ++ calls 1 4 ++ calls 2 4
  ++ [V2.Main; V2.Main; V2.Main; V2.Main]
  ++ calls 0 4 ++ calls 1 4 ++ [V2.Main; V2.Main; V2.Main].

(** The call for the second page of the first file returns first. *)
Definition second_page_first : list V2.action :=
  [V2.Main] ++ calls 1 5 ++ calls 0 4 ++ calls 2 4
  ++ [V2.Main; V2.Main; V2.Main; V2.Main]
  ++ calls 0 4 ++ calls 1 4 ++ [V2.Main; V2.Main; V2.Main].


Definition mixed_schedule : list V2.action :=
  [V2.Main] ++ calls 0 5 ++ calls 1 1 ++ [V2.Main; V2.Main; V2.Main].

Definition all_writable : string -> bool := fun _ => true.

(** The folder of category ["A"] cannot be written. *)
Definition a_unwritable : string -> bool :=
  fun company => if decide (company = "A") then false else true.

Definition two_buckets : list (string * list V2.image) :=
  [("A", [{| V2.img_doc := 0; V2.img_page := 0 |}]);
   ("B", [{| V2.img_doc := 0; V2.img_page := 1 |}])].


Definition mixed_end : V2.config :=
  Eval vm_compute in
    default (V2.init [])
      (V2.run invoices all_writable mixed_schedule (V2.init mixed_document)).

Definition in_page_order_end : V2.config :=
  Eval vm_compute in
    default (V2.init [])
      (V2.run invoices all_writable in_page_order (V2.init two_documents)).

Definition second_page_first_end : V2.config :=
  Eval vm_compute in
    default (V2.init [])
      (V2.run invoices all_writable second_page_first (V2.init two_documents)).

End Samples.

(** ** Definitions for the further properties *)

(** Two features with the same top-left corner. *)
Definition same_corner (a b : feature) : Prop :=
  box_0 (bounding_box a) = box_0 (bounding_box b) /\
  box_1 (bounding_box a) = box_1 (bounding_box b).

(** Invariants of the routing of pages to buckets. *)

Module Routing.
Import V2.

(** The category the classifier gives to the page an image comes from. *)
Definition category_of (templates : templates_t) (docs : list document)
    (im : image) : option string :=
  page_at docs (img_doc im) (img_page im) ≫= classify templates.

(** The category a call has found for its page. *)
Definition worker_category (templates : templates_t) (docs : list document)
    (owners : list string) (w : worker) : Prop :=
  match w with
  | Check company im | Create company im | Load company im =>
      category_of templates docs im = Some company
  | Append addr im =>
      exists company,
        owners !! addr = Some company /\
        category_of templates docs im = Some company
  | Start _ _ _ | Done => True
  end.

(** [owners] names, for every list of the heap, the category it was created
    for. *)
Record routing (templates : templates_t) (docs : list document)
    (owners : list string) (c : config) : Prop := {
  ro_length : length owners = length (heap (shared c));
  ro_heap :
    forall addr company images,
      owners !! addr = Some company -> heap (shared c) !! addr = Some images ->
      Forall (fun im => category_of templates docs im = Some company) images;
  ro_dict :
    forall company addr,
      (company, addr) ∈ company_images (shared c) -> owners !! addr = Some company;
  ro_keys : NoDup (company_images (shared c)).*1;
  ro_named : Forall (fun company => company ≠ "") owners;
  ro_workers : Forall (worker_category templates docs owners) (tasks c)
}.

(** Every call works on the page of its position, and an image is in the heap
    only once its call has returned. *)
Record placement (c : config) : Prop := {
  pl_workers : forall i w, tasks c !! i = Some w -> worker_at (next_doc c) i w;
  pl_heap : Forall (Forall (appended c)) (heap (shared c));
  pl_nodup : Forall NoDup (heap (shared c))
}.
(** The image is in the bucket of the category. *)
Definition placed (st : store) (im : image) (company : string) : Prop :=
  exists addr images,
    dict_get (company_images st) company = Some addr /\
    heap st !! addr = Some images /\ im ∈ images.

(** What a call between line 102 and line 104 knows of the dictionary when no
    other call moves. *)
Definition worker_view (templates : templates_t) (docs : list document)
    (st : store) (w : worker) : Prop :=
  match w with
  | Create company _ => dict_get (company_images st) company = None
  | Load company _ => is_Some (dict_get (company_images st) company)
  | Append addr im =>
      exists company,
        category_of templates docs im = Some company /\
        dict_get (company_images st) company = Some addr
  | Start _ _ _ | Check _ _ | Done => True
  end.

Record complete (templates : templates_t) (docs : list document)
    (c : config) : Prop := {
  co_cover :
    forall d i pg, S d = next_doc c -> page_at docs d i = Some pg ->
      is_Some (tasks c !! i);
  co_dict :
    forall company addr,
      dict_get (company_images (shared c)) company = Some addr ->
      addr < length (heap (shared c));
  co_placed :
    forall im pg company,
      page_at docs (img_doc im) (img_page im) = Some pg ->
      classify templates pg = Some company ->
      appended c im -> placed (shared c) im company;
  co_workers : Forall (worker_view templates docs (shared c)) (tasks c)
}.

End Routing.

(** ** [extract_layout_features] (0.0.2, lines 48-58) *)











(** ** Folders and the start of a run (both versions) *)

(** [os.makedirs(path)] on the set of the paths that exist: it raises
    [FileExistsError], an [OSError], when the path exists, and the error of
    the operating system when the folder may not be created.  Of the folders
    it creates only the last is recorded. *)
Definition makedirs (permitted : string -> bool) (path : string)
    (folders : gset string) : result (gset string) :=
  if decide (path ∈ folders) then Raise OSError
  else if permitted path then Ok ({[path]} ∪ folders)
  else Raise OSError.


(** [create_output_folder] (0.0.1, lines 162-170; 0.0.2, lines 181-189). *)
Definition create_output_folder (permitted : string -> bool)
    (folder_name : string) (folders : gset string)
    : result (bool * gset string) :=
  match
    (if decide (folder_name ∈ folders) then Ok folders
     else makedirs permitted folder_name folders)
  with
  | Ok folders' => Ok (true, folders')
  | Raise OSError => Ok (false, folders)
  | Raise e => Raise e
  end.

(** [start_convert_pdf] (0.0.1, lines 140-159; 0.0.2, lines 160-178).
    [selected_files] and [selected_folder] are what the two dialogs return
    (nothing selected: the empty tuple, the empty string); [normalize_path]
    stands for the function of that name.  The result holds the arguments
    with which the [process_files] thread is started, if it is. *)
Definition start_convert_pdf (normalize_path : string -> string)
    (permitted : string -> bool) (selected_files : list string)
    (selected_folder : string) (folders : gset string)
    : option (list string * string) * gset string :=
  if decide (selected_files = []) then (None, folders)
  else if decide (selected_folder = "") then (None, folders)
  else
    let output_folder_name := normalize_path selected_folder in
    match
      (if decide (output_folder_name ∈ folders) then Ok (true, folders)
       else create_output_folder permitted output_folder_name folders)
    with
    | Ok (_, folders') => (Some (selected_files, output_folder_name), folders')
    | Raise _ => (None, folders)
    end.

(** ** Version 0.0.1: the batch run *)

Module Direct.

(** A selected file: the number of pages [fitz] counts, and what
    [convert_from_path] yields (each image standing for the text the OCR
    reads on it). *)
Record document : Type := {
  page_count : nat;
  images : result (list string)
}.

(** The folders that exist and the images the run has written, by path. *)
Record disk : Type := {
  folders : gset string;
  files : gmap string V2.image
}.

(** Where a [process_page] call stands.  Between two of these points the
    call does not touch the disk. *)
Inductive worker : Type :=
  | Start (page_number pdf_path : nat) (images : result (list string))
  | Folder (company file_name : string) (im : V2.image)
  | MakeDirs (company_folder file_name : string) (im : V2.image)
  | Save (company_folder file_name : string) (im : V2.image)
  | Done.

(** The state of a [process_files] call (lines 115-137). *)
Record config : Type := {
  pdf_file_paths : list document;   (* files the outer loop has not reached *)
  next_doc : nat;                   (* their index in the selection *)
  tasks : list worker;              (* the calls of the current [executor.map] *)
  yielded : nat;                    (* results [extend] has taken from it *)
  future_results : nat;             (* length of the list *)
  fs : disk;
  total_pages : nat;
  completed_pages : nat;
  progress_var : list Q;            (* values passed to [set], latest first *)
  reporting : bool;                 (* the loop of line 131 has been entered *)
  finished : bool
}.

Definition init (folders0 : gset string) (docs : list document) : config :=
  {| pdf_file_paths := docs; next_doc := 0; tasks := []; yielded := 0;
     future_results := 0;
     fs := {| folders := folders0; files := ∅ |};
     total_pages := sum_list (page_count <$> docs);
     completed_pages := 0; progress_var := []; reporting := false;
     finished := false |}.

(** One step of the thread that runs [process_files]. *)
Definition main_step (c : config) : option config :=
  if finished c then None
  else if reporting c then
    if decide (completed_pages c < future_results c) then
      (* lines 132-133 *)
      let completed := completed_pages c + 1 in
      match truediv completed (total_pages c) with
      | Ok fraction =>
          Some {| pdf_file_paths := pdf_file_paths c; next_doc := next_doc c;
                  tasks := tasks c; yielded := yielded c;
                  future_results := future_results c; fs := fs c;
                  total_pages := total_pages c;
                  completed_pages := completed;
                  progress_var := (fraction * 100)%Q :: progress_var c;
                  reporting := true; finished := false |}
      | Raise _ =>
          (* line 136 *)
          Some {| pdf_file_paths := pdf_file_paths c; next_doc := next_doc c;
                  tasks := tasks c; yielded := yielded c;
                  future_results := future_results c; fs := fs c;
                  total_pages := total_pages c;
                  completed_pages := completed;
                  progress_var := progress_var c;
                  reporting := true; finished := true |}
      end
    else
      Some {| pdf_file_paths := pdf_file_paths c; next_doc := next_doc c;
              tasks := tasks c; yielded := yielded c;
              future_results := future_results c; fs := fs c;
              total_pages := total_pages c;
              completed_pages := completed_pages c;
              progress_var := progress_var c;
              reporting := true; finished := true |}
  else if decide (yielded c < length (tasks c)) then
    match tasks c !! yielded c with
    | Some Done =>
        (* line 129: [extend] takes the next result *)
        Some {| pdf_file_paths := pdf_file_paths c; next_doc := next_doc c;
                tasks := tasks c; yielded := yielded c + 1;
                future_results := future_results c + 1; fs := fs c;
                total_pages := total_pages c;
                completed_pages := completed_pages c;
                progress_var := progress_var c;
                reporting := false; finished := false |}
    | _ => None
    end
  else
    match pdf_file_paths c with
    | doc :: rest =>
        (* lines 123-129: the next file is dispatched *)
        Some {| pdf_file_paths := rest; next_doc := next_doc c + 1;
                tasks :=
                  (fun page_number => Start page_number (next_doc c) (images doc))
                    <$> seq 0 (page_count doc);
                yielded := 0;
                future_results := future_results c; fs := fs c;
                total_pages := total_pages c;
                completed_pages := completed_pages c;
                progress_var := progress_var c;
                reporting := false; finished := false |}
    | [] =>
        (* line 131 *)
        Some {| pdf_file_paths := []; next_doc := next_doc c;
                tasks := tasks c; yielded := yielded c;
                future_results := future_results c; fs := fs c;
                total_pages := total_pages c;
                completed_pages := completed_pages c;
                progress_var := progress_var c;
                reporting := true; finished := false |}
    end.

(** Which thread moves next. *)
Inductive action : Type :=
  | Main
  | Worker (i : nat).

(** The steps a call has left, at most. *)
Definition worker_steps (w : worker) : nat :=
  match w with
  | Start _ _ _ => 4
  | Folder _ _ _ => 3
  | MakeDirs _ _ _ => 2
  | Save _ _ _ => 1
  | Done => 0
  end.

Definition measure (c : config) : nat :=
  sum_list (worker_steps <$> tasks c) +
  if finished c then 0
  else if reporting c then 1 + (future_results c - completed_pages c)
  else
    2 + (future_results c - completed_pages c)
    + 2 * (length (tasks c) - yielded c)
    + sum_list ((fun doc => 1 + 6 * page_count doc) <$> pdf_file_paths c).

Definition returned (w : worker) : bool :=
  match w with Done => true | _ => false end.

Definition started (w : worker) : bool :=
  match w with Start _ _ _ => false | _ => true end.

(** The schedule of a pool with one thread: the first call that has not
    returned runs; the main thread moves when all have. *)
Definition pick (c : config) : action :=
  match list_find (fun w => returned w = false) (tasks c) with
  | Some (i, _) => Worker i
  | None => Main
  end.

Section Run.

Variable re_search : V1.regex_engine.
Variable templates : templates_t.
Variable join : string -> string -> string.
Variable permitted : string -> bool.
Variable output_folder : string.

(** One step of a [process_page] call (lines 71-112); [None] when the call
    has returned. *)
Definition process_page (w : worker) (d : disk) : option (worker * disk) :=
  match w with
  | Start page_number pdf_path images =>
      (* lines 74-96 *)
      match V1.process_page re_search templates page_number images with
      | Some (company, file_name) =>
          Some (Folder company file_name
                  {| V2.img_doc := pdf_path; V2.img_page := page_number |}, d)
      | None => Some (Done, d)
      end
  | Folder company file_name im =>
      (* lines 48-49 *)
      let company_folder := join output_folder company in
      if decide (company_folder ∈ folders d)
      then Some (Save company_folder file_name im, d)
      else Some (MakeDirs company_folder file_name im, d)
  | MakeDirs company_folder file_name im =>
      (* line 50 *)
      match makedirs permitted company_folder (folders d) with
      | Ok folders' =>
          Some (Save company_folder file_name im,
                {| folders := folders'; files := files d |})
      | Raise _ => Some (Done, d)
      end
  | Save company_folder file_name im =>
      (* lines 101-102 *)
      let output_path := join company_folder file_name in
      if permitted output_path
      then Some (Done, {| folders := folders d;
                          files := <[output_path := im]> (files d) |})
      else Some (Done, d)
  | Done => None
  end.

Definition worker_step (i : nat) (c : config) : option config :=
  w ← tasks c !! i;
  '(w', d) ← process_page w (fs c);
  Some {| pdf_file_paths := pdf_file_paths c; next_doc := next_doc c;
          tasks := <[i := w']> (tasks c); yielded := yielded c;
          future_results := future_results c; fs := d;
          total_pages := total_pages c;
          completed_pages := completed_pages c;
          progress_var := progress_var c;
          reporting := reporting c; finished := finished c |}.

Definition step (a : action) (c : config) : option config :=
  match a with
  | Main => main_step c
  | Worker i => worker_step i c
  end.

(** A run under a schedule; [None] when the schedule asks a thread to move
    that cannot. *)
Fixpoint run (sched : list action) (c : config) : option config :=
  match sched with
  | [] => Some c
  | a :: sched' => step a c ≫= run sched'
  end.

Fixpoint run_in_order (fuel : nat) (c : config) : config :=
  match fuel with
  | O => c
  | S fuel' =>
      match step (pick c) c with
      | Some c' => run_in_order fuel' c'
      | None => c
      end
  end.

(** The call for the page of [im] saves it as [file_name] in the folder of
    [company]. *)
Definition saved_as (docs : list document) (im : V2.image)
    (company file_name : string) : Prop :=
  exists doc,
    docs !! V2.img_doc im = Some doc /\
    V2.img_page im < page_count doc /\
    V1.process_page re_search templates (V2.img_page im) (images doc)
    = Some (company, file_name).

Definition worker_ok (docs : list document) (nd : nat) (d : disk)
    (w : worker) : Prop :=
  match w with
  | Start page_number pdf_path imgs =>
      S pdf_path = nd /\
      exists doc,
        docs !! pdf_path = Some doc /\ page_number < page_count doc /\
        imgs = images doc
  | Folder company file_name im =>
      S (V2.img_doc im) = nd /\ saved_as docs im company file_name
  | MakeDirs company_folder file_name im =>
      S (V2.img_doc im) = nd /\
      exists company,
        company_folder = join output_folder company /\
        saved_as docs im company file_name
  | Save company_folder file_name im =>
      S (V2.img_doc im) = nd /\
      company_folder ∈ folders d /\
      exists company,
        company_folder = join output_folder company /\
        saved_as docs im company file_name
  | Done => True
  end.

Record invariant (folders0 : gset string) (docs : list document)
    (c : config) : Prop := {
  inv_docs : pdf_file_paths c = drop (next_doc c) docs;
  inv_total : total_pages c = sum_list (page_count <$> docs);
  inv_count :
    future_results c + (length (tasks c) - yielded c)
    + sum_list (page_count <$> pdf_file_paths c) = total_pages c;
  inv_yielded : yielded c <= length (tasks c);
  inv_done : forall i, i < yielded c -> tasks c !! i = Some Done;
  inv_completed : completed_pages c <= future_results c;
  inv_progress : progress_var c = V2.reported (total_pages c) (completed_pages c);
  inv_collecting :
    reporting c = false -> completed_pages c = 0 /\ finished c = false;
  inv_reporting :
    reporting c = true ->
    yielded c = length (tasks c) /\ pdf_file_paths c = [];
  inv_finished :
    finished c = true ->
    reporting c = true /\ completed_pages c = future_results c;
  inv_workers : Forall (worker_ok docs (next_doc c) (fs c)) (tasks c);
  inv_folders :
    forall folder, folder ∈ folders (fs c) ->
      folder ∈ folders0 \/
      exists company r,
        folder = join output_folder company /\
        dict_get templates company = Some r;
  inv_folders0 : folders0 ⊆ folders (fs c);
  inv_files :
    forall path im, files (fs c) !! path = Some im ->
      exists company file_name,
        saved_as docs im company file_name /\
        path = join (join output_folder company) file_name /\
        join output_folder company ∈ folders (fs c)
}.

(** The call at position [i] of the tasks of the file before [nd] works on
    page [i] of that file. *)
Definition worker_at (nd i : nat) (w : worker) : Prop :=
  match w with
  | Start page_number pdf_path _ => page_number = i /\ S pdf_path = nd
  | Folder _ _ im | MakeDirs _ _ im | Save _ _ im =>
      V2.img_page im = i /\ S (V2.img_doc im) = nd
  | Done => True
  end.

(** The call for the page has returned. *)
Definition handled (c : config) (im : V2.image) : Prop :=
  S (V2.img_doc im) < next_doc c \/
  (S (V2.img_doc im) = next_doc c /\ tasks c !! V2.img_page im = Some Done).

(** Invariant of the runs in which no two calls overlap. *)
Record sequential (docs : list document) (c : config) : Prop := {
  sq_tasks :
    forall i j wi wj, i < j ->
      tasks c !! i = Some wi -> tasks c !! j = Some wj ->
      wi = Done \/ started wj = false;
  sq_workers : forall i w, tasks c !! i = Some w -> worker_at (next_doc c) i w;
  sq_length :
    forall doc, next_doc c ≠ 0 -> docs !! pred (next_doc c) = Some doc ->
      length (tasks c) = page_count doc;
  sq_makedirs :
    forall i company_folder file_name im,
      tasks c !! i = Some (MakeDirs company_folder file_name im) ->
      company_folder ∉ folders (fs c);
  sq_saved :
    forall im company file_name,
      handled c im -> saved_as docs im company file_name ->
      join output_folder company ∈ folders (fs c) /\
      exists im',
        files (fs c) !! join (join output_folder company) file_name = Some im' /\
        (im' = im \/ V2.page_before im im')
}.

End Run.

End Direct.

(** Sample inputs of the direct-save run. *)

Module DirectSamples.

(** [os.path.join] on relative POSIX paths. *)
Definition join_slash (a b : string) : string := a +:+ "/" +:+ b.

Definition permit_all : string -> bool := fun _ => true.

(** One file of two pages, both matched to ["Acme"]; the second carries an
    order number. *)
Definition two_orders : Direct.document :=
  {| Direct.page_count := 2;
     Direct.images := Ok ["Acme Corp invoice"; "Acme PO-"] |}.

Definition calls (i n : nat) : list Direct.action := replicate n (Direct.Worker i).

(** The call for the first page returns before the second begins. *)
Definition one_after_the_other : list Direct.action :=
  [Direct.Main] ++ calls 0 4 ++ calls 1 3 ++ replicate 6 Direct.Main.

Definition one_after_the_other_end : Direct.config :=
  Eval vm_compute in
    default (Direct.init ∅ [])
      (Direct.run Samples.literal_search Samples.acme_orders join_slash
         permit_all "out" one_after_the_other (Direct.init ∅ [two_orders])).




End DirectSamples.

(** * Properties *)

(** ** Substring search *)

Lemma startswith_spec kw s :
  startswith kw s = true <-> exists post, s = kw +:+ post.
Proof.
  revert s. induction kw as [|a kw IH]; intros s.
  - split; [intros _; by exists s | done].
  - destruct s as [|b s]; simpl.
    + split; [done | intros [post Hpost]; discriminate Hpost].
    + destruct (decide (a = b)) as [->|Hne].
      * rewrite IH. split; intros [post Hpost]; exists post.
        -- by rewrite Hpost.
        -- by injection Hpost.
      * split; [done | intros [post Hpost]; injection Hpost; congruence].
Qed.

Lemma contains_spec kw s :
  contains kw s = true <-> exists pre post, s = pre +:+ kw +:+ post.
Proof.
  induction s as [|b s IH]; simpl.
  - rewrite orb_false_r, startswith_spec. split.
    + intros [post Hpost]. by exists "", post.
    + intros [[|c pre] [post Hpost]]; [by exists post | discriminate Hpost].
  - rewrite orb_true_iff, startswith_spec, IH. split.
    + intros [[post Hpost] | (pre & post & Hs)].
      * by exists "", post.
      * exists (String b pre), post. by rewrite Hs.
    + intros ([|c pre] & post & Hs).
      * left. by exists post.
      * right. exists pre, post. by injection Hs.
Qed.

Lemma keyword_occurs_spec text r :
  existsb (fun keyword => contains keyword text) (header_keywords r) = true
  <-> keyword_occurs text r.
Proof.
  unfold keyword_occurs. rewrite existsb_exists. split.
  - intros (kw & Hin & Hc). apply contains_spec in Hc as (pre & post & ->).
    exists kw, pre, post. by rewrite list_elem_of_In.
  - intros (kw & pre & post & Hin & ->). exists kw.
    rewrite <- list_elem_of_In. split; [done |]. apply contains_spec; eauto.
Qed.

(** ** Layout similarity *)

Lemma corner_close_sym feature1 feature2 :
  corner_close feature1 feature2 = corner_close feature2 feature1.
Proof.
  unfold corner_close; cbv zeta.
  by rewrite (Qabs_Qminus (box_0 (bounding_box feature1))),
             (Qabs_Qminus (box_1 (bounding_box feature1))).
Qed.

(** The loop of lines 63-67 counts the close pairs of the zipped lists. *)
Lemma similarity_loop (pairs : list (feature * feature)) (similarity : nat) :
  fold_left
    (fun similarity '(feature1, feature2) =>
       if corner_close feature1 feature2 then similarity + 1 else similarity)
    pairs similarity
  = similarity + length (filter (fun p => corner_close p.1 p.2 = true) pairs).
Proof.
  revert similarity. induction pairs as [|[f1 f2] pairs IH]; intros n; simpl.
  - lia.
  - rewrite IH, filter_cons; simpl.
    destruct (corner_close f1 f2); case_decide; simpl; try done; lia.
Qed.

Lemma zip_take_shorter {A B : Type} (l : list A) (k : list B) :
  zip (take (Nat.min (length l) (length k)) l)
      (take (Nat.min (length l) (length k)) k) = zip l k.
Proof.
  revert k. induction l as [|a l IH]; intros [|b k]; simpl; try done.
  by rewrite IH.
Qed.

Lemma zip_swap {A B : Type} (l : list A) (k : list B) :
  zip k l = (fun p => (p.2, p.1)) <$> zip l k.
Proof.
  revert k. induction l as [|a l IH]; intros [|b k]; simpl; try done.
  by rewrite IH.
Qed.

Lemma similar_pairs_sym features1 features2 :
  similar_pairs features1 features2 = similar_pairs features2 features1.
Proof.
  unfold similar_pairs. rewrite !zip_take_shorter, (zip_swap features1 features2).
  induction (zip features1 features2) as [|[f1 f2] pairs IH]; [done |].
  rewrite fmap_cons, !filter_cons; simpl.
  rewrite (corner_close_sym f2 f1).
  destruct (corner_close f1 f2); repeat case_decide; simpl; try done.
  by rewrite IH.
Qed.

(** [compare_layouts] is the quotient the specification describes, with
    Python's division: it raises when the longer sequence is empty. *)
Lemma compare_layouts_quotient features1 features2 :
  compare_layouts features1 features2
  = truediv (similar_pairs features1 features2)
            (Nat.max (length features1) (length features2)).
Proof.
  unfold compare_layouts, similar_pairs.
  by rewrite similarity_loop, zip_take_shorter.
Qed.

Lemma truediv_defined (n m : nat) :
  m ≠ 0 -> truediv n m = Ok (Z.of_nat n # Pos.of_nat m).
Proof. by destruct m. Qed.

Lemma longer_nonzero {A : Type} (l k : list A) :
  l ≠ [] \/ k ≠ [] -> Nat.max (length l) (length k) ≠ 0.
Proof. destruct l, k; simpl; intros [?|?]; try done; lia. Qed.

Lemma compare_layouts_raises_iff features1 features2 :
  compare_layouts features1 features2 = Raise ZeroDivisionError
  <-> features1 = [] /\ features2 = [].
Proof.
  rewrite compare_layouts_quotient. split.
  - destruct features1, features2; simpl; try done.
  - by intros [-> ->].
Qed.

(** C3 (the code fails the claim).  The specification defines the similarity
    of two empty feature sequences as 0; [compare_layouts] divides by the
    length of the longer one without a guard and raises [ZeroDivisionError]. *)
Theorem compare_layouts_empty_raises :
  compare_layouts [] [] = Raise ZeroDivisionError /\
  compare_layouts [] [] ≠ Ok 0%Q.
Proof. split; [reflexivity | discriminate]. Qed.

(** C10.  Layout similarity is symmetric: when at least one of the two
    feature lists is non-empty, [compare_layouts] has a value and it is the
    same in both argument orders. *)
Theorem compare_layouts_symmetric (features1 features2 : list feature) :
  features1 ≠ [] \/ features2 ≠ [] ->
  compare_layouts features1 features2 = compare_layouts features2 features1 /\
  exists similarity, compare_layouts features1 features2 = Ok similarity.
Proof.
  intros Hne. rewrite !compare_layouts_quotient. split.
  - by rewrite similar_pairs_sym, Nat.max_comm.
  - eexists. apply truediv_defined. by apply longer_nonzero.
Qed.

Lemma compare_layouts_symmetric_witness :
  (Samples.page_blocks ≠ [] \/ Samples.reference_blocks ≠ []) /\
  compare_layouts Samples.page_blocks Samples.reference_blocks
  = compare_layouts Samples.reference_blocks Samples.page_blocks /\
  exists similarity,
    compare_layouts Samples.page_blocks Samples.reference_blocks = Ok similarity.
Proof.
  split; [left; discriminate |].
  apply (compare_layouts_symmetric Samples.page_blocks Samples.reference_blocks).
  left; discriminate.
Defined.

(** ** The classifier *)

Lemma Qltb_spec (x y : Q) : Qltb x y = true <-> (x < y)%Q.
Proof.
  unfold Qltb. rewrite negb_true_iff, <- not_true_iff_false, Qle_bool_iff.
  split; [apply Qnot_le_lt | apply Qlt_not_le].
Qed.

Lemma compare_layouts_defined features1 features2 :
  features1 ≠ [] \/ features2 ≠ [] ->
  compare_layouts features1 features2 = Ok (layout_similarity features1 features2).
Proof.
  intros Hne. rewrite compare_layouts_quotient. unfold layout_similarity.
  apply longer_nonzero in Hne.
  by destruct (Nat.max (length features1) (length features2)).
Qed.

Lemma template_matchesb_spec text layout_feats r :
  template_matchesb text layout_feats r = true
  <-> template_matches text layout_feats r.
Proof.
  unfold template_matchesb, template_matches.
  rewrite orb_true_iff, keyword_occurs_spec.
  destruct (layout_features r) as [ref|]; split; intros [Hkw | Hsim]; try tauto.
  - right. exists ref. by rewrite <- Qltb_spec.
  - right. destruct Hsim as (ref' & [= <-] & Hlt). by apply Qltb_spec.
  - done.
  - by destruct Hsim as (ref' & [=] & _).
Qed.

(** The two ways the body of the loop of [identify_page] ends. *)
Lemma identify_page_division_fails text layout_feats company r templates :
  division_fails layout_feats r ->
  identify_page text layout_feats ((company, r) :: templates)
  = Raise ZeroDivisionError.
Proof. intros [-> Hr]; simpl. by rewrite Hr. Qed.

Lemma identify_page_head text layout_feats company r templates :
  ¬ division_fails layout_feats r ->
  identify_page text layout_feats ((company, r) :: templates)
  = if template_matchesb text layout_feats r then Ok (Some company)
    else identify_page text layout_feats templates.
Proof.
  intros Hdef. simpl. unfold template_matchesb.
  destruct (layout_features r) as [ref|] eqn:Hr; simpl.
  - rewrite compare_layouts_defined; [done |].
    destruct layout_feats; [right | left; done].
    intros ->. by apply Hdef.
  - reflexivity.
Qed.

Lemma division_fails_decidable layout_feats r :
  division_fails layout_feats r \/ ¬ division_fails layout_feats r.
Proof.
  unfold division_fails.
  destruct layout_feats as [|f fs]; [|right; by intros [? _]].
  destruct (layout_features r) as [[|f fs]|]; [by left | right | right];
    by intros [_ ?].
Qed.

(** [identify_page] returns a category exactly when it is the category of the
    first template whose condition holds, every template before it having
    been passed over. *)
Lemma identify_page_first_match text layout_feats templates company :
  identify_page text layout_feats templates = Ok (Some company) <->
  exists pre r post,
    templates = pre ++ (company, r) :: post /\
    Forall (passed_over text layout_feats) pre /\
    ¬ division_fails layout_feats r /\ template_matches text layout_feats r.
Proof.
  induction templates as [|[c0 r0] templates IH].
  - split; [done | by intros ([|] & ? & ? & ? & _)].
  - destruct (division_fails_decidable layout_feats r0) as [Hdiv | Hdef].
    + rewrite (identify_page_division_fails _ _ _ _ _ Hdiv). split; [done |].
      intros ([|cr pre] & r & post & Heq & Hpre & Hr & _); simplify_eq/=; [done |].
      apply Forall_cons_1 in Hpre as [[Hcr _] _]. done.
    + rewrite (identify_page_head _ _ _ _ _ Hdef).
      destruct (template_matchesb text layout_feats r0) eqn:Hm.
      * apply template_matchesb_spec in Hm. split.
        -- intros [= <-]. by exists [], r0, templates.
        -- intros ([|cr pre] & r & post & Heq & Hpre & _); simplify_eq/=; [done |].
           apply Forall_cons_1 in Hpre as [[_ Hcr] _]. done.
      * apply not_true_iff_false in Hm. rewrite template_matchesb_spec in Hm.
        rewrite IH. split.
        -- intros (pre & r & post & -> & Hpre & Hr).
           exists ((c0, r0) :: pre), r, post. split; [done |].
           split; [|done]. by constructor.
        -- intros ([|cr pre] & r & post & Heq & Hpre & Hr & Hmr); simplify_eq/=; [done |].
           apply Forall_cons_1 in Hpre as [_ Hpre]. by exists pre, r, post.
Qed.

(** It returns [None] exactly when every template is passed over. *)
Lemma identify_page_unmatched text layout_feats templates :
  identify_page text layout_feats templates = Ok None <->
  Forall (passed_over text layout_feats) templates.
Proof.
  induction templates as [|[c0 r0] templates IH]; [by split |].
  rewrite Forall_cons.
  destruct (division_fails_decidable layout_feats r0) as [Hdiv | Hdef].
  - rewrite (identify_page_division_fails _ _ _ _ _ Hdiv).
    split; [done | by intros [[? _] _]].
  - rewrite (identify_page_head _ _ _ _ _ Hdef).
    destruct (template_matchesb text layout_feats r0) eqn:Hm.
    + apply template_matchesb_spec in Hm. split; [done | by intros [[_ ?] _]].
    + apply not_true_iff_false in Hm. rewrite template_matchesb_spec in Hm.
      rewrite IH. unfold passed_over at 2. simpl. tauto.
Qed.


(** The keyword classifier of version 0.0.1 is first-match-wins on every
    input. *)
Lemma identify_company_first_match text templates company :
  identify_company text templates = Some company <->
  exists pre r post,
    templates = pre ++ (company, r) :: post /\
    Forall (fun cr => ¬ keyword_occurs text cr.2) pre /\
    keyword_occurs text r.
Proof.
  induction templates as [|[c0 r0] templates IH]; simpl.
  - split; [done | by intros ([|] & ? & ? & ? & _)].
  - destruct (existsb _ (header_keywords r0)) eqn:Hkw.
    + apply keyword_occurs_spec in Hkw. split.
      * intros [= <-]. by exists [], r0, templates.
      * intros ([|cr pre] & r & post & Heq & Hpre & _); simplify_eq/=; [done |].
        apply Forall_cons_1 in Hpre as [Hcr _]. done.
    + apply not_true_iff_false in Hkw. rewrite keyword_occurs_spec in Hkw.
      rewrite IH. split.
      * intros (pre & r & post & -> & Hpre & Hr).
        exists ((c0, r0) :: pre), r, post. split; [done |].
        split; [|done]. by constructor.
      * intros ([|cr pre] & r & post & Heq & Hpre & Hr); simplify_eq/=; [done |].
        apply Forall_cons_1 in Hpre as [_ Hpre]. by exists pre, r, post.
Qed.

Lemma identify_company_unmatched text templates :
  identify_company text templates = None <->
  Forall (fun cr => ¬ keyword_occurs text cr.2) templates.
Proof.
  induction templates as [|[c0 r0] templates IH]; simpl; [by split |].
  rewrite Forall_cons; simpl.
  destruct (existsb _ (header_keywords r0)) eqn:Hkw.
  - apply keyword_occurs_spec in Hkw. split; [done | by intros [? _]].
  - apply not_true_iff_false in Hkw. rewrite keyword_occurs_spec in Hkw.
    rewrite IH. tauto.
Qed.

(** A single template is chosen exactly when its condition holds, provided
    the division of line 68 is defined. *)
Lemma identify_page_single text layout_feats company r :
  ¬ division_fails layout_feats r ->
  identify_page text layout_feats [(company, r)] = Ok (Some company)
  <-> template_matches text layout_feats r.
Proof.
  intros Hdef. rewrite (identify_page_head _ _ _ _ _ Hdef).
  rewrite <- template_matchesb_spec.
  by destruct (template_matchesb text layout_feats r).
Qed.

(** C1 (the code fails the claim).  With templates declared in the order
    [A, B] and a text that holds a keyword of each, the claim has [A] chosen.
    When [A] declares an empty reference list and the page has no layout
    features, [identify_page] computes the similarity before it looks at the
    keyword test and raises [ZeroDivisionError]; on a blank page, where no
    template matches, it raises as well instead of returning [None]. *)
Theorem identify_page_raises_at_first_match :
  template_matches "Acme Beta" [] Samples.acme /\
  template_matches "Acme Beta" [] Samples.beta /\
  identify_page "Acme Beta" [] [("A", Samples.acme); ("B", Samples.beta)]
  = Raise ZeroDivisionError /\
  identify_page "" [] [("A", Samples.acme); ("B", Samples.beta)]
  = Raise ZeroDivisionError.
Proof.
  repeat split; try reflexivity; left.
  - exists "Acme", "", " Beta". split; [by apply list_elem_of_here | done].
  - exists "Beta", "Acme ", "". split; [by apply list_elem_of_here | done].
Qed.

(** C4 (the code fails the claim).  A header keyword of the template occurs
    in the text, so the claim has the template match; the reference list and
    the page's list are both empty, the quotient of the claim is 0 by 0, and
    [identify_page] raises instead of choosing the template.  On a blank
    page (no text, no block) it raises as well instead of passing the
    template over. *)
Theorem identify_page_keyword_match_raises :
  keyword_occurs "Acme" Samples.acme /\
  similar_pairs [] [] = 0 /\
  Nat.max (length (@nil feature)) (length (@nil feature)) = 0 /\
  identify_page "Acme" [] [("A", Samples.acme)] = Raise ZeroDivisionError /\
  identify_page "" [] [("A", Samples.acme)] = Raise ZeroDivisionError.
Proof.
  repeat split; try reflexivity.
  exists "Acme", "", "". split; [by apply list_elem_of_here | done].
Qed.

(** ** Loading the templates *)

(** C6, as the claim states it, fails: a malformed source makes
    [load_templates] raise; only [FileNotFoundError] is handled. *)
Lemma load_templates_malformed_raises :
  load_templates Malformed = Raise JSONDecodeError /\
  load_templates Malformed ≠ Ok [].
Proof. split; [reflexivity | discriminate]. Qed.

(** C6, amended.  A missing source yields the empty template set without an
    exception, and every page is then unmatched; a well-formed source yields
    its templates; a malformed source raises the decoder's exception, which
    ends [process_files] before any page is dispatched. *)
Theorem load_templates_missing_empty :
  load_templates Missing = Ok [] /\
  (forall text layout_feats,
     identify_page text layout_feats [] = Ok None /\
     identify_company text [] = None) /\
  (forall t, load_templates (WellFormed t) = Ok t) /\
  load_templates Malformed = Raise JSONDecodeError /\
  (forall writable docs sched,
     V2.process_files Malformed writable docs sched = Raise JSONDecodeError).
Proof. repeat split. Qed.

(** ** Field extraction and file names (version 0.0.1) *)

Section FieldExtraction.

Variable re_search : V1.regex_engine.


(** A category that [identify_company] returns is a key of the templates. *)
Lemma identify_company_declared text templates company :
  identify_company text templates = Some company ->
  exists r, dict_get templates company = Some r.
Proof.
  induction templates as [|[c0 r0] templates IH]; simpl; [done |].
  destruct (existsb _ (header_keywords r0)).
  - intros [= ->]. exists r0. by rewrite decide_True.
  - intros Hrest. case_decide; [by exists r0 | by apply IH].
Qed.


End FieldExtraction.


(** ** The batch run of version 0.0.2 *)

Lemma reported_next total n :
  V2.reported total (n + 1)
  = ((Z.of_nat (n + 1) # Pos.of_nat total) * 100)%Q :: V2.reported total n.
Proof.
  unfold V2.reported. rewrite Nat.add_1_r, seq_S, reverse_snoc, fmap_cons.
  by rewrite Nat.add_1_l.
Qed.

Lemma bucket_ok_mono templates docs nd nd' images :
  nd <= nd' ->
  V2.bucket_ok templates docs nd images -> V2.bucket_ok templates docs nd' images.
Proof.
  intros Hle [Hsorted Hall]. split; [done |].
  eapply Forall_impl; [done |]. intros im [? ?]. split; [lia | done].
Qed.

Lemma bucket_ok_append templates docs nd images im :
  S (V2.img_doc im) = nd -> V2.routed templates docs im ->
  V2.bucket_ok templates docs nd images ->
  V2.bucket_ok templates docs nd (images ++ [im]).
Proof.
  intros Hdoc Hrouted [Hsorted Hall]. split.
  - apply StronglySorted_app_2; [| done | repeat constructor].
    intros x1 x2 Hx1 Hx2. apply list_elem_of_singleton in Hx2 as ->.
    rewrite Forall_forall in Hall. destruct (Hall x1 Hx1). lia.
  - apply Forall_app. split; [done |]. repeat constructor; [lia | done].
Qed.

Section Run.

Variable templates : templates_t.
Variable writable : string -> bool.
Variable docs : list V2.document.

Lemma invariant_init : V2.invariant templates writable docs (V2.init docs).
Proof.
  split; simpl; try done; intros; lia.
Qed.

(** A step of a call keeps the worker and the heap invariants. *)
Lemma process_page_ok nd w st w' st' :
  V2.process_page templates w st = Some (w', st') ->
  V2.worker_ok templates docs nd w ->
  Forall (V2.bucket_ok templates docs nd) (V2.heap st) ->
  V2.worker_ok templates docs nd w' /\
  Forall (V2.bucket_ok templates docs nd) (V2.heap st') /\
  V2.worker_steps w' < V2.worker_steps w.
Proof.
  intros Hstep Hw Hheap. destruct w as [pn pdf pg | co im | co im | co im | a im |];
    simpl in Hstep.
  - destruct Hw as [Hnd Hpg].
    destruct (V2.classify templates pg) as [company|] eqn:Hclass;
      simplify_eq/=; repeat split; try done; try lia.
    by exists pg, company.
  - destruct Hw as [Hnd Hrouted].
    destruct (dict_get _ _); simplify_eq/=; repeat split; try done; lia.
  - destruct Hw as [Hnd Hrouted].
    simplify_eq/=. repeat split; try done; [|lia].
    apply Forall_app. split; [done |]. repeat constructor.
  - destruct Hw as [Hnd Hrouted].
    destruct (dict_get _ _); simplify_eq/=; repeat split; try done; lia.
  - destruct Hw as [Hnd Hrouted].
    destruct (V2.heap st !! a) as [images|] eqn:Ha;
      simplify_eq/=; repeat split; try done; try lia.
    apply Forall_insert; [done |].
    apply bucket_ok_append; [done | done |].
    by eapply Forall_lookup_1.
  - done.
Qed.

Lemma process_page_not_done w st w' st' :
  V2.process_page templates w st = Some (w', st') -> w ≠ V2.Done.
Proof. by destruct w. Qed.

Lemma invariant_worker_step i c c' :
  V2.invariant templates writable docs c ->
  V2.worker_step templates i c = Some c' ->
  V2.invariant templates writable docs c'.
Proof.
  intros Hinv Hstep. unfold V2.worker_step in Hstep.
  destruct (V2.tasks c !! i) as [w|] eqn:Hw; [|done]. simpl in Hstep.
  destruct (V2.process_page templates w (V2.shared c)) as [[w' st']|] eqn:Hpp;
    [|done].
  simpl in Hstep. injection Hstep as <-.
  assert (Hnd := process_page_not_done _ _ _ _ Hpp).
  destruct (process_page_ok (V2.next_doc c) _ _ _ _ Hpp) as (Hw' & Hheap' & _).
  { eapply Forall_lookup_1; [apply Hinv | done]. }
  { apply Hinv. }
  destruct Hinv as [Hdocs Htotal Hcount Hyield Hdone Hprog Hworkers Hheap Hfin].
  split; simpl; try done.
  - by rewrite length_insert.
  - by rewrite length_insert.
  - intros j Hj. rewrite list_lookup_insert_ne; [by apply Hdone |].
    intros ->. rewrite Hdone in Hw by done. congruence.
  - by apply Forall_insert.
  - intros out Hout. destruct (Hfin out Hout) as (Hy & _ & _).
    rewrite Hdone in Hw; [congruence |].
    apply lookup_lt_Some in Hw. lia.
Qed.

Lemma invariant_main_step c c' :
  V2.invariant templates writable docs c ->
  V2.main_step writable c = Some c' ->
  V2.invariant templates writable docs c'.
Proof.
  intros [Hdocs Htotal Hcount Hyield Hdone Hprog Hworkers Hheap Hfin] Hstep.
  unfold V2.main_step in Hstep.
  destruct (V2.finished c) eqn:Hnotfin; [done |].
  case_decide as Hlt.
  - destruct (V2.tasks c !! V2.yielded c) as [[]|] eqn:Hw; try done.
    destruct (V2.total_pages c) as [|total'] eqn:Htot; [lia |].
    simpl in Hstep. injection Hstep as <-.
    split; simpl; rewrite ?Htot; try done; try lia.
    + intros i Hi. destruct (decide (i = V2.yielded c)) as [->|]; [done |].
      apply Hdone. lia.
    + by rewrite reported_next, Hprog.
  - destruct (V2.pdf_file_paths c) as [|doc rest] eqn:Hpaths;
      injection Hstep as <-.
    + split; simpl; try done.
      intros out [= <-]. repeat split. lia.
    + assert (Hdoc : docs !! V2.next_doc c = Some doc).
      { rewrite <- (Nat.add_0_r (V2.next_doc c)), <- lookup_drop, <- Hdocs.
        done. }
      split; simpl; try done.
      * rewrite Nat.add_1_r. erewrite drop_S in Hdocs by done. congruence.
      * rewrite length_imap. rewrite fmap_cons in Hcount. simpl in Hcount. lia.
      * lia.
      * intros i Hi. lia.
      * apply Forall_lookup. intros i w Hw.
        rewrite list_lookup_imap in Hw.
        destruct (doc !! i) as [pg|] eqn:Hpg; simplify_eq/=.
        split; [lia |]. unfold V2.page_at. by rewrite Hdoc.
      * eapply Forall_impl; [done |]. intros images.
        apply bucket_ok_mono. lia.
Qed.

Lemma invariant_step a c c' :
  V2.invariant templates writable docs c ->
  V2.step templates writable a c = Some c' ->
  V2.invariant templates writable docs c'.
Proof.
  destruct a as [|i]; [apply invariant_main_step | apply invariant_worker_step].
Qed.

Lemma invariant_run sched c c' :
  V2.invariant templates writable docs c ->
  V2.run templates writable sched c = Some c' ->
  V2.invariant templates writable docs c'.
Proof.
  revert c. induction sched as [|a sched IH]; intros c Hinv Hrun; simpl in Hrun.
  - by injection Hrun as <-.
  - destruct (V2.step templates writable a c) as [c1|] eqn:Hstep; [|done].
    eapply IH; [|done]. by eapply invariant_step.
Qed.

Lemma invariant_reachable sched c :
  V2.run templates writable sched (V2.init docs) = Some c ->
  V2.invariant templates writable docs c.
Proof. apply invariant_run, invariant_init. Qed.

(** *** Every run can be brought to its end *)

Lemma worker_steps_insert (ws : list V2.worker) i w w' :
  ws !! i = Some w -> V2.worker_steps w' < V2.worker_steps w ->
  sum_list (V2.worker_steps <$> <[i := w']> ws)
  < sum_list (V2.worker_steps <$> ws).
Proof.
  revert i. induction ws as [|w0 ws IH]; intros [|i] Hi Hlt; simplify_eq/=.
  - lia.
  - specialize (IH i Hi Hlt). lia.
Qed.

Lemma worker_steps_dispatch nd (doc : V2.document) j :
  sum_list (V2.worker_steps <$>
              imap (fun page_number pg => V2.Start (j + page_number) nd pg) doc)
  = 5 * length doc.
Proof.
  revert j. induction doc as [|pg doc IH]; intros j; [done |].
  simpl.
  rewrite (imap_ext _ (fun page_number pg => V2.Start (S j + page_number) nd pg)).
  - rewrite IH. lia.
  - intros i x _. simpl. f_equal. lia.
Qed.

Lemma measure_step a c c' :
  V2.invariant templates writable docs c ->
  V2.step templates writable a c = Some c' ->
  V2.measure c' < V2.measure c.
Proof.
  intros Hinv Hstep. destruct a as [|i]; simpl in Hstep.
  - unfold V2.main_step in Hstep.
    destruct (V2.finished c) eqn:Hnotfin; [done |].
    case_decide as Hlt.
    + destruct (V2.tasks c !! V2.yielded c) as [[]|] eqn:Hw; try done.
      destruct (V2.total_pages c) as [|total'] eqn:Htot.
      * destruct Hinv. lia.
      * simpl in Hstep. injection Hstep as <-.
        unfold V2.measure. rewrite Hnotfin. simpl. lia.
    + destruct (V2.pdf_file_paths c) as [|doc rest] eqn:Hpaths;
        injection Hstep as <-; unfold V2.measure; rewrite Hnotfin; simpl.
      * lia.
      * pose proof (worker_steps_dispatch (V2.next_doc c) doc 0) as Hsum.
        simpl in Hsum. rewrite length_imap, Hsum, Hpaths, fmap_cons. simpl. lia.
  - unfold V2.worker_step in Hstep.
    destruct (V2.tasks c !! i) as [w|] eqn:Hw; [|done]. simpl in Hstep.
    destruct (V2.process_page templates w (V2.shared c)) as [[w' st']|] eqn:Hpp;
      [|done].
    simpl in Hstep. injection Hstep as <-.
    destruct (process_page_ok (V2.next_doc c) _ _ _ _ Hpp) as (_ & _ & Hlt).
    { eapply Forall_lookup_1; [apply Hinv | done]. }
    { apply Hinv. }
    destruct (V2.finished c) as [out|] eqn:Hfin.
    + destruct Hinv as [_ _ _ _ Hdone _ _ _ Hfinished].
      destruct (Hfinished out Hfin) as (Hy & _ & _).
      rewrite Hdone in Hw; [by simplify_eq |].
      apply lookup_lt_Some in Hw. lia.
    + unfold V2.measure. simpl. rewrite !Hfin, length_insert.
      pose proof (worker_steps_insert _ _ _ _ Hw Hlt). lia.
Qed.

Lemma pick_enabled c :
  V2.invariant templates writable docs c ->
  V2.finished c = None ->
  exists c', V2.step templates writable (V2.pick c) c = Some c'.
Proof.
  intros Hinv Hnotfin. unfold V2.pick.
  destruct (list_find _ (V2.tasks c)) as [[i w]|] eqn:Hfind.
  - apply list_find_Some in Hfind as (Hw & Hrun & _).
    simpl. unfold V2.worker_step. rewrite Hw. simpl.
    destruct w; try done; simpl; eauto.
    + destruct (V2.classify templates pg); simpl; eauto.
    + destruct (dict_get _ _); simpl; eauto.
    + destruct (dict_get _ _); simpl; eauto.
    + destruct (V2.heap _ !! _); simpl; eauto.
  - apply list_find_None in Hfind. simpl. unfold V2.main_step.
    rewrite Hnotfin. case_decide as Hlt.
    + destruct (lookup_lt_is_Some_2 _ _ Hlt) as [w Hw]. rewrite Hw.
      eapply Forall_lookup_1 in Hfind; [|done].
      destruct w; try done.
      destruct (truediv _ _); eauto.
    + destruct (V2.pdf_file_paths c); eauto.
Qed.



(** *** The progress counter *)


Lemma finished_completed c :
  V2.invariant templates writable docs c ->
  is_Some (V2.finished c) ->
  V2.completed_pages c = V2.total_pages c.
Proof.
  intros [_ _ Hcount _ _ _ _ _ Hfin] [out Hout].
  destruct (Hfin out Hout) as (Hy & Hpaths & _).
  rewrite Hpaths in Hcount. simpl in Hcount. lia.
Qed.


(** *** What the buckets and the output hold *)

Lemma buckets_elem (st : V2.store) company images :
  (company, images) ∈ V2.buckets st ->
  images = [] \/ images ∈ V2.heap st.
Proof.
  unfold V2.buckets. intros Hin.
  apply list_elem_of_fmap in Hin as ([company' addr] & [= -> ->] & _).
  destruct (V2.heap st !! addr) as [images|] eqn:Haddr; simpl; [|by left].
  right. by eapply list_elem_of_lookup_2.
Qed.

Lemma create_company_pdfs_elem company_images b :
  b ∈ (V2.create_company_pdfs writable company_images).1 ->
  b ∈ company_images.
Proof.
  induction company_images as [|[company images] rest IH]; simpl; [done |].
  destruct (writable company); simpl; [|by intros ?%elem_of_nil].
  destruct (V2.create_company_pdfs writable rest) as [written e]; simpl in *.
  intros [->|Hin]%elem_of_cons; [apply list_elem_of_here |].
  apply list_elem_of_further. by apply IH.
Qed.

Lemma bucket_in_heap_ok c company images :
  V2.invariant templates writable docs c ->
  (company, images) ∈ V2.buckets (V2.shared c) ->
  V2.bucket_ok templates docs (V2.next_doc c) images.
Proof.
  intros Hinv [->|Hin]%buckets_elem.
  - split; constructor.
  - destruct Hinv as [_ _ _ _ _ _ _ Hheap _].
    rewrite Forall_forall in Hheap. by apply Hheap.
Qed.

Lemma written_bucket_ok c out e company images :
  V2.invariant templates writable docs c ->
  V2.finished c = Some (out, e) ->
  (company, images) ∈ out ->
  V2.bucket_ok templates docs (V2.next_doc c) images.
Proof.
  intros Hinv Hfin Hin. eapply bucket_in_heap_ok; [done |].
  destruct Hinv as [_ _ _ _ _ _ _ _ Hfinished].
  destruct (Hfinished _ Hfin) as (_ & _ & Hout).
  apply create_company_pdfs_elem. by rewrite <- Hout.
Qed.


(** A page that the classifier assigns to no category is in no list of the
    shared dictionary and in no output document. *)
Lemma unrouted_page_absent sched c d i pg :
  V2.run templates writable sched (V2.init docs) = Some c ->
  V2.page_at docs d i = Some pg ->
  V2.classify templates pg = None ->
  (forall images, images ∈ V2.heap (V2.shared c) ->
     {| V2.img_doc := d; V2.img_page := i |} ∉ images) /\
  (forall company images, (company, images) ∈ V2.buckets (V2.shared c) ->
     {| V2.img_doc := d; V2.img_page := i |} ∉ images) /\
  (forall out e company images,
     V2.finished c = Some (out, e) -> (company, images) ∈ out ->
     {| V2.img_doc := d; V2.img_page := i |} ∉ images).
Proof.
  intros Hrun Hpg Hclass. pose proof (invariant_reachable _ _ Hrun) as Hinv.
  assert (Hno : forall images,
            V2.bucket_ok templates docs (V2.next_doc c) images ->
            {| V2.img_doc := d; V2.img_page := i |} ∉ images).
  { intros images [_ Hall] Hin. rewrite Forall_forall in Hall.
    destruct (Hall _ Hin) as (_ & pg' & company & Hpg' & Hclass').
    simpl in Hpg'. congruence. }
  repeat split.
  - intros images Hin. apply Hno.
    destruct Hinv as [_ _ _ _ _ _ _ Hheap _].
    rewrite Forall_forall in Hheap. by apply Hheap.
  - intros company images Hin. apply Hno. by eapply bucket_in_heap_ok.
  - intros out e company images Hfin Hin. apply Hno.
    by eapply written_bucket_ok.
Qed.

(** C7.  A page that [identify_page] leaves unmatched is, at every point of
    every run, in no bucket of [company_images], and in no document that
    [create_company_pdfs] writes; the counter of a finished run equals the
    number of all pages of the selection, that page included.  In version
    0.0.1 a page that [identify_company] leaves unmatched is not saved. *)
Theorem unmatched_page_not_routed sched c d i text layout_feats :
  V2.run templates writable sched (V2.init docs) = Some c ->
  V2.page_at docs d i = Some (V2.Readable text layout_feats) ->
  identify_page text layout_feats templates = Ok None ->
  (forall company images, (company, images) ∈ V2.buckets (V2.shared c) ->
     {| V2.img_doc := d; V2.img_page := i |} ∉ images) /\
  (forall out e company images,
     V2.finished c = Some (out, e) -> (company, images) ∈ out ->
     {| V2.img_doc := d; V2.img_page := i |} ∉ images) /\
  (is_Some (V2.finished c) ->
     V2.completed_pages c = sum_list (length <$> docs)) /\
  (forall re_search page_number images ocr_text,
     images !! page_number = Some ocr_text ->
     identify_company ocr_text templates = None ->
     V1.process_page re_search templates page_number (Ok images) = None).
Proof.
  intros Hrun Hpg Hnone.
  assert (Hclass : V2.classify templates (V2.Readable text layout_feats) = None).
  { simpl. by rewrite Hnone. }
  destruct (unrouted_page_absent _ _ _ _ _ Hrun Hpg Hclass) as (_ & Hb & Hout).
  split; [done |]. split; [done |]. split.
  - intros Hfin. pose proof (invariant_reachable _ _ Hrun) as Hinv.
    rewrite (finished_completed _ Hinv Hfin). apply Hinv.
  - intros re_search page_number images ocr_text Himg Hcompany.
    unfold V1.process_page. by rewrite Himg, Hcompany.
Qed.

(** *** Calls that return in page order *)

Lemma in_order_init : V2.in_order (V2.init docs).
Proof. split; simpl; try done. Qed.

Lemma in_order_main_step c c' :
  V2.in_order c -> V2.main_step writable c = Some c' -> V2.in_order c'.
Proof.
  intros [Htasks Hworkers Hheap] Hstep. unfold V2.main_step in Hstep.
  destruct (V2.finished c); [done |]. case_decide.
  - destruct (V2.tasks c !! V2.yielded c) as [[]|]; try done.
    destruct (truediv _ _); injection Hstep as <-; by split.
  - destruct (V2.pdf_file_paths c) as [|doc rest]; injection Hstep as <-;
      [by split |].
    split; simpl.
    + intros i j wi wj _ _ Hj. right.
      rewrite list_lookup_imap in Hj. by destruct (doc !! j); simplify_eq/=.
    + intros i w Hi.
      rewrite list_lookup_imap in Hi. destruct (doc !! i); simplify_eq/=.
      split; [done | lia].
    + eapply Forall_impl; [done |]. intros images [Hsorted Hall].
      split; [done |]. eapply Forall_impl; [done |].
      intros im [Hlt | [Heq _]]; left; simpl; lia.
Qed.

(** What one step of a call does to the heap. *)
Lemma process_page_heap nd i w st w' st' :
  V2.process_page templates w st = Some (w', st') ->
  V2.worker_at nd i w ->
  V2.worker_at nd i w' /\
  (V2.heap st' = V2.heap st \/
   V2.heap st' = V2.heap st ++ [[]] \/
   exists addr images im,
     w = V2.Append addr im /\ w' = V2.Done /\
     V2.heap st !! addr = Some images /\
     V2.heap st' = <[addr := images ++ [im]]> (V2.heap st)).
Proof.
  intros Hstep Hat.
  destruct w as [pn pdf pg | co im | co im | co im | a im |]; simpl in Hstep.
  - destruct (V2.classify templates pg); simplify_eq/=; split; auto.
  - destruct (dict_get _ _); simplify_eq/=; split; auto.
  - simplify_eq/=. split; auto.
  - destruct (dict_get _ _); simplify_eq/=; split; auto.
  - destruct (V2.heap st !! a) as [images|] eqn:Ha; simplify_eq/=; split; auto.
    right; right. by exists a, images, im.
  - done.
Qed.

Lemma in_order_worker_step i w c c' :
  V2.in_order c ->
  V2.tasks c !! i = Some w ->
  (forall j y, V2.tasks c !! j = Some y -> j < i -> y = V2.Done) ->
  V2.worker_step templates i c = Some c' ->
  V2.in_order c'.
Proof.
  intros [Htasks Hworkers Hheap] Hw Hfirst Hstep.
  unfold V2.worker_step in Hstep. rewrite Hw in Hstep. simpl in Hstep.
  destruct (V2.process_page templates w (V2.shared c)) as [[w' st']|] eqn:Hpp;
    [|done].
  simpl in Hstep. injection Hstep as <-.
  assert (Hrun : w ≠ V2.Done) by (by destruct w).
  assert (Hi : i < length (V2.tasks c)) by (by eapply lookup_lt_Some).
  destruct (process_page_heap (V2.next_doc c) i _ _ _ _ Hpp (Hworkers _ _ Hw))
    as [Hat' Hheap'].
  (* images already appended stay so *)
  assert (Hkeep : forall im, V2.appended c im ->
            V2.appended
              {| V2.pdf_file_paths := V2.pdf_file_paths c;
                 V2.next_doc := V2.next_doc c;
                 V2.tasks := <[i := w']> (V2.tasks c);
                 V2.yielded := V2.yielded c; V2.shared := st';
                 V2.total_pages := V2.total_pages c;
                 V2.completed_pages := V2.completed_pages c;
                 V2.progress_var := V2.progress_var c;
                 V2.finished := V2.finished c |} im).
  { intros im [Hlt | [Heq Hdone]]; [by left | right]. simpl.
    split; [done |]. rewrite list_lookup_insert_ne; [done |].
    intros ->. congruence. }
  (* an image appended earlier precedes the page of this call *)
  assert (Hbefore : forall x im, V2.appended c x ->
            V2.img_page im = i -> S (V2.img_doc im) = V2.next_doc c ->
            V2.page_before x im).
  { intros x im [Hlt | [Heq Hdone]] Hpage Hdoc; [left; lia | right].
    split; [lia |].
    destruct (decide (V2.img_page x < i)) as [|Hge]; [lia |].
    assert (V2.img_page x ≠ i) by (intros Hx; rewrite Hx in Hdone; congruence).
    destruct (Htasks i (V2.img_page x) w V2.Done) as [|]; try done. lia. }
  split; simpl.
  - intros a b wa wb Hab Ha Hb.
    destruct (decide (a = i)) as [->|Hai].
    + rewrite list_lookup_insert_ne in Hb by lia.
      destruct (Htasks i b w wb Hab Hw Hb); [done | by right].
    + rewrite list_lookup_insert_ne in Ha by done.
      destruct (decide (b = i)) as [->|Hbi].
      * left. by eapply Hfirst.
      * rewrite list_lookup_insert_ne in Hb by done. by eapply Htasks.
  - intros j y Hj. destruct (decide (j = i)) as [->|Hji].
    + rewrite list_lookup_insert_eq in Hj by done. by simplify_eq.
    + rewrite list_lookup_insert_ne in Hj by done. by apply Hworkers.
  - assert (Hold : Forall (fun images =>
              V2.page_order images /\
              Forall (V2.appended
                {| V2.pdf_file_paths := V2.pdf_file_paths c;
                   V2.next_doc := V2.next_doc c;
                   V2.tasks := <[i := w']> (V2.tasks c);
                   V2.yielded := V2.yielded c; V2.shared := st';
                   V2.total_pages := V2.total_pages c;
                   V2.completed_pages := V2.completed_pages c;
                   V2.progress_var := V2.progress_var c;
                   V2.finished := V2.finished c |}) images)
              (V2.heap (V2.shared c))).
    { eapply Forall_impl; [done |]. intros images [Hsorted Hall].
      split; [done |]. eapply Forall_impl; [done | apply Hkeep]. }
    destruct Hheap' as [-> | [-> | (addr & images & im & -> & -> & Haddr & ->)]].
    + done.
    + apply Forall_app. split; [done |]. repeat constructor.
    + apply Forall_insert; [done |].
      pose proof Hold as Hold'.
      eapply Forall_lookup_1 in Hold' as [Hsorted Hall]; [|exact Haddr].
      destruct (Hworkers _ _ Hw) as [Hpage Hdoc].
      split.
      * apply StronglySorted_app_2; [| done | repeat constructor].
        intros x1 x2 Hx1 Hx2. apply list_elem_of_singleton in Hx2 as ->.
        apply Hbefore; [|done|done].
        eapply Forall_lookup_1 in Hheap as [_ Hall0]; [|exact Haddr].
        rewrite Forall_forall in Hall0. by apply Hall0.
      * apply Forall_app. split; [done |]. apply Forall_singleton.
        right. simpl. split; [done |].
        rewrite Hpage. by rewrite list_lookup_insert_eq.
Qed.

Lemma in_order_pick c c' :
  V2.in_order c ->
  V2.step templates writable (V2.pick c) c = Some c' ->
  V2.in_order c'.
Proof.
  intros Hio. unfold V2.pick.
  destruct (list_find _ (V2.tasks c)) as [[i w]|] eqn:Hfind; simpl.
  - apply list_find_Some in Hfind as (Hw & _ & Hfirst).
    apply (in_order_worker_step i w); [done | done |].
    intros j y Hj Hlt. specialize (Hfirst j y Hj Hlt). by destruct y.
  - by apply in_order_main_step.
Qed.
Lemma run_in_order_spec fuel c :
  V2.invariant templates writable docs c ->
  V2.in_order c ->
  V2.invariant templates writable docs (V2.run_in_order templates writable fuel c) /\
  V2.in_order (V2.run_in_order templates writable fuel c) /\
  (exists sched,
     V2.run templates writable sched c
     = Some (V2.run_in_order templates writable fuel c)) /\
  (V2.measure c <= fuel ->
   is_Some (V2.finished (V2.run_in_order templates writable fuel c))).
Proof.
  revert c. induction fuel as [|fuel IH]; intros c Hinv Hio; simpl.
  - split; [done |]. split; [done |]. split; [by exists [] |].
    unfold V2.measure. destruct (V2.finished c); [by eexists | lia].
  - destruct (V2.step templates writable (V2.pick c) c) as [c1|] eqn:Hstep.
    + destruct (IH c1) as (Hinv' & Hio' & [sched Hrun] & Hfin).
      { by eapply invariant_step. }
      { by eapply in_order_pick. }
      split; [done |]. split; [done |]. split.
      * exists (V2.pick c :: sched). simpl. by rewrite Hstep.
      * intros Hfuel. apply Hfin.
        pose proof (measure_step _ _ _ Hinv Hstep). lia.
    + split; [done |]. split; [done |]. split; [by exists [] |].
      intros _. destruct (V2.finished c) eqn:Hfin; [by eexists |].
      destruct (pick_enabled c Hinv Hfin) as [c1 Hc1]. congruence.
Qed.

Lemma bucket_page_order c company images :
  V2.in_order c ->
  (company, images) ∈ V2.buckets (V2.shared c) ->
  V2.page_order images.
Proof.
  intros [_ _ Hheap] [->|Hin]%buckets_elem; [constructor |].
  rewrite Forall_forall in Hheap. by apply Hheap.
Qed.

(** C5, amended.  Whatever the order in which the calls return, every
    bucket, and every document written, holds its pages in the order of
    the files: a page of a file selected earlier comes before a page of a
    file selected later.  Within one file the pages come in the order in
    which the calls appended them: it is ascending page index in the run in
    which the calls of a file return one after the other in page order, and
    that run exists and finishes. *)
Theorem buckets_in_document_order sched c :
  V2.run templates writable sched (V2.init docs) = Some c ->
  (forall company images,
     (company, images) ∈ V2.buckets (V2.shared c) -> V2.doc_order images) /\
  (forall out e company images,
     V2.finished c = Some (out, e) -> (company, images) ∈ out ->
     V2.doc_order images) /\
  (forall fuel,
     c = V2.run_in_order templates writable fuel (V2.init docs) ->
     forall company images,
       (company, images) ∈ V2.buckets (V2.shared c) -> V2.page_order images) /\
  (exists sched0,
     V2.run templates writable sched0 (V2.init docs)
     = Some (V2.run_in_order templates writable
               (V2.measure (V2.init docs)) (V2.init docs)) /\
     is_Some (V2.finished
                (V2.run_in_order templates writable
                   (V2.measure (V2.init docs)) (V2.init docs)))).
Proof.
  intros Hrun. pose proof (invariant_reachable _ _ Hrun) as Hinv.
  split; [|split; [|split]].
  - intros company images Hin.
    by destruct (bucket_in_heap_ok _ _ _ Hinv Hin).
  - intros out e company images Hfin Hin.
    by destruct (written_bucket_ok _ _ _ _ _ Hinv Hfin Hin).
  - intros fuel -> company images Hin.
    destruct (run_in_order_spec fuel _ invariant_init in_order_init)
      as (_ & Hio & _).
    by eapply bucket_page_order.
  - destruct (run_in_order_spec (V2.measure (V2.init docs)) _
                invariant_init in_order_init) as (_ & _ & [sched0 Hrun0] & Hfin).
    exists sched0. split; [done |]. by apply Hfin.
Qed.

End Run.


Lemma unmatched_page_not_routed_witness :
  V2.run Samples.invoices Samples.all_writable Samples.mixed_schedule
    (V2.init Samples.mixed_document) = Some Samples.mixed_end /\
  V2.page_at Samples.mixed_document 0 1
  = Some (V2.Readable "Cover letter" [Samples.block "Cover letter" 40 60]) /\
  identify_page "Cover letter" [Samples.block "Cover letter" 40 60]
    Samples.invoices = Ok None /\
  V2.finished Samples.mixed_end
  = Some ([("X", [{| V2.img_doc := 0; V2.img_page := 0 |}])], None) /\
  (forall company images,
     (company, images) ∈ V2.buckets (V2.shared Samples.mixed_end) ->
     {| V2.img_doc := 0; V2.img_page := 1 |} ∉ images) /\
  V2.completed_pages Samples.mixed_end = 2.
Proof.
  assert (Hrun : V2.run Samples.invoices Samples.all_writable Samples.mixed_schedule
                   (V2.init Samples.mixed_document) = Some Samples.mixed_end)
    by reflexivity.
  assert (Hpage : V2.page_at Samples.mixed_document 0 1
                  = Some (V2.Readable "Cover letter"
                            [Samples.block "Cover letter" 40 60]))
    by reflexivity.
  assert (Hnone : identify_page "Cover letter" [Samples.block "Cover letter" 40 60]
                    Samples.invoices = Ok None)
    by reflexivity.
  split; [exact Hrun |].
  split; [exact Hpage |]. split; [exact Hnone |]. split; [reflexivity |].
  destruct (unmatched_page_not_routed Samples.invoices Samples.all_writable
              Samples.mixed_document Samples.mixed_schedule Samples.mixed_end
              0 1 "Cover letter" [Samples.block "Cover letter" 40 60]
              Hrun Hpage Hnone)
    as (Hbuckets & _ & Hcount & _).
  split; [exact Hbuckets |]. apply Hcount. by eexists.
Defined.

(** ** Assembly *)

(** C8, as the claim states it, fails: the folder of ["A"] cannot be written,
    the exception leaves the loop of [create_company_pdfs], and ["B"], whose
    writes would succeed, gets no document. *)
Lemma assembly_failure_skips_later_categories :
  Samples.a_unwritable "B" = true /\
  V2.create_company_pdfs Samples.a_unwritable Samples.two_buckets
  = ([], Some OSError).
Proof. split; reflexivity. Qed.

(** C8, amended.  [create_company_pdfs] writes the documents of the
    categories, in the order of the dictionary, up to the first category whose
    folder or files cannot be written; that category and every later one get
    no document, and the exception is the run's outcome.  When every category
    can be written, every category gets its document. *)
Theorem create_company_pdfs_stops_at_first_failure
    (writable : string -> bool) (company_images : list (string * list V2.image)) :
  (Forall (fun b => writable b.1 = true) company_images ->
   V2.create_company_pdfs writable company_images = (company_images, None)) /\
  (forall pre company images post,
     company_images = pre ++ (company, images) :: post ->
     Forall (fun b => writable b.1 = true) pre ->
     writable company = false ->
     V2.create_company_pdfs writable company_images = (pre, Some OSError)).
Proof.
  split.
  - induction 1 as [|[company images] rest Hw _ IH]; simpl in *; [done |].
    by rewrite Hw, IH.
  - intros pre company images post -> Hpre Hfail.
    induction Hpre as [|[company' images'] pre Hw _ IH]; simpl in *.
    + by rewrite Hfail.
    + by rewrite Hw, IH.
Qed.

Lemma create_company_pdfs_stops_at_first_failure_witness :
  Forall (fun b : string * list V2.image => Samples.a_unwritable b.1 = true)
    [("B", [{| V2.img_doc := 0; V2.img_page := 1 |}])] /\
  Samples.a_unwritable "A" = false /\
  V2.create_company_pdfs Samples.a_unwritable
    ([("B", [{| V2.img_doc := 0; V2.img_page := 1 |}])]
     ++ ("A", [{| V2.img_doc := 0; V2.img_page := 0 |}]) :: [("C", [])])
  = ([("B", [{| V2.img_doc := 0; V2.img_page := 1 |}])], Some OSError).
Proof.
  assert (Hpre : Forall (fun b : string * list V2.image =>
                           Samples.a_unwritable b.1 = true)
                   [("B", [{| V2.img_doc := 0; V2.img_page := 1 |}])])
    by (repeat constructor).
  split; [exact Hpre |]. split; [reflexivity |].
  exact (proj2 (create_company_pdfs_stops_at_first_failure Samples.a_unwritable _)
           _ "A" _ [("C", [])] eq_refl Hpre eq_refl).
Defined.

(** ** Order of the pages in a bucket *)

(** C5, as the claim states it, fails.  Two files of 3 and 2 pages, all
    matched to ["X"]: when the call for the second page of the first file
    returns before the call for its first page, the bucket and the document
    written hold the second page first. *)
Lemma bucket_order_follows_return_order :
  V2.run Samples.invoices Samples.all_writable Samples.second_page_first
    (V2.init Samples.two_documents) = Some Samples.second_page_first_end /\
  V2.finished Samples.second_page_first_end
  = Some ([("X", [{| V2.img_doc := 0; V2.img_page := 1 |};
                  {| V2.img_doc := 0; V2.img_page := 0 |};
                  {| V2.img_doc := 0; V2.img_page := 2 |};
                  {| V2.img_doc := 1; V2.img_page := 0 |};
                  {| V2.img_doc := 1; V2.img_page := 1 |}])], None) /\
  ¬ V2.page_order [{| V2.img_doc := 0; V2.img_page := 1 |};
                   {| V2.img_doc := 0; V2.img_page := 0 |};
                   {| V2.img_doc := 0; V2.img_page := 2 |};
                   {| V2.img_doc := 1; V2.img_page := 0 |};
                   {| V2.img_doc := 1; V2.img_page := 1 |}].
Proof.
  split; [reflexivity |]. split; [reflexivity |].
  intros Hsorted. apply StronglySorted_inv in Hsorted as [_ Hfirst].
  apply Forall_cons_1 in Hfirst as [[Hlt | [_ Hlt]] _]; simpl in Hlt; lia.
Qed.

Lemma buckets_in_document_order_witness :
  V2.run Samples.invoices Samples.all_writable Samples.in_page_order
    (V2.init Samples.two_documents) = Some Samples.in_page_order_end /\
  Samples.in_page_order_end
  = V2.run_in_order Samples.invoices Samples.all_writable 40
      (V2.init Samples.two_documents) /\
  V2.buckets (V2.shared Samples.in_page_order_end)
  = [("X", [{| V2.img_doc := 0; V2.img_page := 0 |};
            {| V2.img_doc := 0; V2.img_page := 1 |};
            {| V2.img_doc := 0; V2.img_page := 2 |};
            {| V2.img_doc := 1; V2.img_page := 0 |};
            {| V2.img_doc := 1; V2.img_page := 1 |}])] /\
  V2.doc_order [{| V2.img_doc := 0; V2.img_page := 0 |};
                {| V2.img_doc := 0; V2.img_page := 1 |};
                {| V2.img_doc := 0; V2.img_page := 2 |};
                {| V2.img_doc := 1; V2.img_page := 0 |};
                {| V2.img_doc := 1; V2.img_page := 1 |}] /\
  V2.page_order [{| V2.img_doc := 0; V2.img_page := 0 |};
                 {| V2.img_doc := 0; V2.img_page := 1 |};
                 {| V2.img_doc := 0; V2.img_page := 2 |};
                 {| V2.img_doc := 1; V2.img_page := 0 |};
                 {| V2.img_doc := 1; V2.img_page := 1 |}].
Proof.
  assert (Hrun : V2.run Samples.invoices Samples.all_writable Samples.in_page_order
                   (V2.init Samples.two_documents) = Some Samples.in_page_order_end)
    by reflexivity.
  assert (Hfuel : Samples.in_page_order_end
                  = V2.run_in_order Samples.invoices Samples.all_writable 40
                      (V2.init Samples.two_documents))
    by reflexivity.
  split; [exact Hrun |]. split; [exact Hfuel |]. split; [reflexivity |].
  destruct (buckets_in_document_order Samples.invoices Samples.all_writable
              Samples.two_documents Samples.in_page_order
              Samples.in_page_order_end Hrun)
    as (Hdoc & _ & Hpage & _).
  split.
  - apply (Hdoc "X"). apply list_elem_of_here.
  - apply (Hpage 40 Hfuel "X"). apply list_elem_of_here.
Defined.

(** The test of line 102 and the insertion of line 103 are two steps: two
    calls can both find the category absent, and the list the first one
    appended to is replaced by the list of the second.  The bucket then
    lacks a page that was matched. *)
Example matched_page_lost :
  (fun c => V2.buckets (V2.shared c)) <$>
    V2.run Samples.invoices Samples.all_writable
      [V2.Main; V2.Worker 0; V2.Worker 0; V2.Worker 1; V2.Worker 1;
       V2.Worker 0; V2.Worker 0; V2.Worker 1; V2.Worker 0;
       V2.Worker 1; V2.Worker 1]
      (V2.init Samples.two_documents)
  = Some [("X", [{| V2.img_doc := 0; V2.img_page := 1 |}])].
Proof. reflexivity. Qed.

(** * Further properties of the code *)

(** ** Layout similarity *)

Lemma similar_pairs_le_shorter features1 features2 :
  similar_pairs features1 features2
  <= Nat.min (length features1) (length features2).
Proof.
  unfold similar_pairs. etrans; [apply length_filter |].
  rewrite zip_take_shorter, length_zip_with. done.
Qed.






(** X3.  When the shorter list has at most four fifths of the length of the
    longer one, the similarity is at most 0.8: such a template cannot match
    by layout, and without a keyword in the text [identify_page] passes it
    over. *)
Theorem compare_layouts_unequal_lengths (features1 features2 : list feature) :
  5 * Nat.min (length features1) (length features2)
  <= 4 * Nat.max (length features1) (length features2) ->
  features1 ≠ [] \/ features2 ≠ [] ->
  (exists similarity,
     compare_layouts features1 features2 = Ok similarity /\
     (similarity <= 8 # 10)%Q) /\
  (forall text company r templates,
     layout_features r = Some features2 ->
     ¬ keyword_occurs text r ->
     identify_page text features1 ((company, r) :: templates)
     = identify_page text features1 templates).
Proof.
  intros Hlen Hne.
  pose proof (similar_pairs_le_shorter features1 features2) as Hle.
  assert (Hsim : (layout_similarity features1 features2 <= 8 # 10)%Q).
  { unfold layout_similarity.
    destruct (Nat.max (length features1) (length features2)) as [|m] eqn:Hmax;
      [done |].
    unfold Qle; simpl. lia. }
  split.
  - exists (layout_similarity features1 features2).
    split; [by apply compare_layouts_defined | done].
  - intros text company r templates Hr Hkw.
    rewrite identify_page_head.
    + assert (template_matchesb text features1 r = false) as ->; [|done].
      apply not_true_iff_false. rewrite template_matchesb_spec.
      intros [Hocc | (ref & Href & Hlt)]; [done |].
      rewrite Hr in Href. injection Href as <-.
      by apply Qlt_not_le in Hlt.
    + intros [-> Hempty]. rewrite Hr in Hempty. injection Hempty as ->.
      by destruct Hne.
Qed.

Lemma compare_layouts_unequal_lengths_witness :
  5 * Nat.min (length Samples.page_blocks) (length Samples.reference_blocks)
  <= 4 * Nat.max (length Samples.page_blocks) (length Samples.reference_blocks) /\
  (Samples.page_blocks ≠ [] \/ Samples.reference_blocks ≠ []) /\
  exists similarity,
    compare_layouts Samples.page_blocks Samples.reference_blocks = Ok similarity /\
    (similarity <= 8 # 10)%Q.
Proof.
  assert (Hlen : 5 * Nat.min (length Samples.page_blocks)
                       (length Samples.reference_blocks)
                 <= 4 * Nat.max (length Samples.page_blocks)
                          (length Samples.reference_blocks))
    by (simpl; lia).
  assert (Hne : Samples.page_blocks ≠ [] \/ Samples.reference_blocks ≠ [])
    by (left; discriminate).
  split; [exact Hlen |]. split; [exact Hne |].
  exact (proj1 (compare_layouts_unequal_lengths _ _ Hlen Hne)).
Defined.

Lemma corner_close_same_corner a a' b b' :
  same_corner a a' -> same_corner b b' -> corner_close a b = corner_close a' b'.
Proof. intros [Ha0 Ha1] [Hb0 Hb1]. unfold corner_close. by rewrite Ha0, Ha1, Hb0, Hb1. Qed.

(** X4.  [compare_layouts] reads the top-left corners only: block texts and
    bottom-right corners do not change the similarity. *)
Theorem compare_layouts_corners_only
    (features1 features1' features2 features2' : list feature) :
  Forall2 same_corner features1 features1' ->
  Forall2 same_corner features2 features2' ->
  compare_layouts features1 features2 = compare_layouts features1' features2'.
Proof.
  intros H1 H2. unfold compare_layouts.
  rewrite <- (Forall2_length _ _ _ H1), <- (Forall2_length _ _ _ H2).
  f_equal. rewrite !similarity_loop. simpl.
  revert features2 features2' H2.
  induction H1 as [|a a' l l' Ha _ IH]; intros k k' H2; [done |].
  destruct H2 as [|b b' k k' Hb H2]; [done |]. simpl.
  rewrite !filter_cons; simpl.
  rewrite (corner_close_same_corner a a' b b' Ha Hb).
  destruct (corner_close a' b'); repeat case_decide; simpl; try done;
    by rewrite (IH _ _ H2).
Qed.

Lemma compare_layouts_corners_only_witness :
  Forall2 same_corner [Samples.block "Invoice" 10 10] [Samples.block "  INVOICE " 10 10] /\
  Forall2 same_corner Samples.reference_blocks Samples.reference_blocks /\
  compare_layouts [Samples.block "Invoice" 10 10] Samples.reference_blocks
  = compare_layouts [Samples.block "  INVOICE " 10 10] Samples.reference_blocks.
Proof.
  assert (H1 : Forall2 same_corner [Samples.block "Invoice" 10 10]
                 [Samples.block "  INVOICE " 10 10])
    by (repeat constructor).
  assert (H2 : Forall2 same_corner Samples.reference_blocks Samples.reference_blocks)
    by (repeat constructor).
  split; [exact H1 |]. split; [exact H2 |].
  exact (compare_layouts_corners_only _ _ _ _ H1 H2).
Defined.

(** ** The classifiers *)

(** X5.  On templates none of which declares [layout_features], the
    classifier of version 0.0.2 returns what the classifier of version 0.0.1
    returns, whatever the layout of the page. *)
Theorem identify_page_without_layouts text layout_feats (templates : templates_t) :
  Forall (fun cr => layout_features cr.2 = None) templates ->
  identify_page text layout_feats templates = Ok (identify_company text templates).
Proof.
  induction 1 as [|[company r] templates Hr _ IH]; simpl in *; [done |].
  rewrite Hr; simpl. rewrite orb_false_r.
  by destruct (existsb _ (header_keywords r)).
Qed.

Lemma identify_page_without_layouts_witness :
  Forall (fun cr : string * rules => layout_features cr.2 = None) Samples.acme_orders /\
  identify_page "Acme Corp invoice" Samples.page_blocks Samples.acme_orders
  = Ok (identify_company "Acme Corp invoice" Samples.acme_orders).
Proof.
  assert (H : Forall (fun cr : string * rules => layout_features cr.2 = None)
                Samples.acme_orders) by (repeat constructor).
  split; [exact H |].
  exact (identify_page_without_layouts _ _ _ H).
Defined.

(** X6.  A category that [identify_page] returns is a key of the templates,
    and so is one that [identify_company] returns. *)
Theorem identified_category_declared text layout_feats (templates : templates_t) company :
  identify_page text layout_feats templates = Ok (Some company) \/
  identify_company text templates = Some company ->
  exists r, dict_get templates company = Some r /\ (company, r) ∈ templates.
Proof.
  assert (Hkey : forall pre r post,
            templates = pre ++ (company, r) :: post ->
            exists r', dict_get templates company = Some r' /\ (company, r') ∈ templates).
  { intros pre r post ->. induction pre as [|[c0 r0] pre IH]; simpl.
    - exists r. rewrite decide_True by done. split; [done | apply list_elem_of_here].
    - case_decide as Hc.
      + subst c0. exists r0. split; [done | apply list_elem_of_here].
      + destruct IH as (r' & Hget & Hin). exists r'.
        split; [done | by apply list_elem_of_further]. }
  intros [Hpage | Hcompany].
  - apply identify_page_first_match in Hpage as (pre & r & post & Heq & _). eauto.
  - apply identify_company_first_match in Hcompany as (pre & r & post & Heq & _). eauto.
Qed.

Lemma identified_category_declared_witness :
  (identify_page "Acme Corp invoice" Samples.page_blocks Samples.acme_orders
   = Ok (Some "Acme") \/
   identify_company "Acme Corp invoice" Samples.acme_orders = Some "Acme") /\
  exists r, dict_get Samples.acme_orders "Acme" = Some r /\
            ("Acme", r) ∈ Samples.acme_orders.
Proof.
  assert (H : identify_page "Acme Corp invoice" Samples.page_blocks Samples.acme_orders
              = Ok (Some "Acme") \/
              identify_company "Acme Corp invoice" Samples.acme_orders = Some "Acme")
    by (left; reflexivity).
  split; [exact H |].
  exact (identified_category_declared _ _ _ _ H).
Defined.

(** X7.  A page whose text holds a header keyword is never left unmatched by
    [identify_page]: it is given a category or the call raises. *)
Theorem keyword_page_not_unmatched text layout_feats (templates : templates_t) company :
  identify_company text templates = Some company ->
  identify_page text layout_feats templates ≠ Ok None.
Proof.
  intros Hcompany Hnone.
  apply identify_company_first_match in Hcompany as (pre & r & post & -> & _ & Hkw).
  apply identify_page_unmatched in Hnone.
  apply Forall_app in Hnone as [_ Hnone].
  apply Forall_cons_1 in Hnone as [[_ Hnot] _].
  apply Hnot. by left.
Qed.

Lemma keyword_page_not_unmatched_witness :
  identify_company "Acme Corp invoice" Samples.acme_orders = Some "Acme" /\
  identify_page "Acme Corp invoice" Samples.page_blocks Samples.acme_orders ≠ Ok None.
Proof.
  assert (H : identify_company "Acme Corp invoice" Samples.acme_orders = Some "Acme")
    by reflexivity.
  split; [exact H |].
  exact (keyword_page_not_unmatched _ Samples.page_blocks _ _ H).
Defined.

(** X8.  Templates declared after the others are consulted only when none of
    the others matches: a result reached on the first templates, a category
    or an exception, is the result on the longer dictionary. *)
Theorem identify_page_more_templates text layout_feats (templates more : templates_t) :
  identify_page text layout_feats (templates ++ more)
  = match identify_page text layout_feats templates with
    | Ok None => identify_page text layout_feats more
    | outcome => outcome
    end.
Proof.
  induction templates as [|[company r] templates IH]; simpl.
  - by destruct (identify_page text layout_feats more) as [[]|].
  - destruct (match layout_features r with
              | Some template_features => compare_layouts layout_feats template_features
              | None => Ok 0%Q
              end) as [similarity|e]; simpl; [|done].
    by destruct (existsb _ (header_keywords r) || Qltb (8 # 10) similarity).
Qed.

(** X9.  [identify_company] is first-match-wins on every input: it returns a
    category exactly when that is the category of the first template one of
    whose keywords occurs in the text, and [None] exactly when no template
    has such a keyword. *)
Theorem identify_company_first_match_wins text (templates : templates_t) :
  (forall company,
     identify_company text templates = Some company <->
     exists pre r post,
       templates = pre ++ (company, r) :: post /\
       Forall (fun cr => ¬ keyword_occurs text cr.2) pre /\
       keyword_occurs text r) /\
  (identify_company text templates = None <->
   Forall (fun cr => ¬ keyword_occurs text cr.2) templates).
Proof.
  split; [intros company; apply identify_company_first_match |].
  apply identify_company_unmatched.
Qed.


(** ** The shared dictionary of version 0.0.2 *)

Import Routing.

Lemma dict_get_elem {V : Type} (d : list (string * V)) k v :
  dict_get d k = Some v -> (k, v) ∈ d.
Proof.
  induction d as [|[k' v'] d IH]; simpl; [done |].
  case_decide as Hk.
  - intros [= ->]. subst. apply list_elem_of_here.
  - intros Hget. apply list_elem_of_further. by apply IH.
Qed.

Lemma dict_get_None {V : Type} (d : list (string * V)) k :
  dict_get d k = None <-> k ∉ d.*1.
Proof.
  induction d as [|[k' v'] d IH]; csimpl.
  - split; [intros _; apply not_elem_of_nil | done].
  - rewrite not_elem_of_cons. case_decide as Hk.
    + split; [done | intros [Hne _]; by subst].
    + rewrite IH. split; [intros ?; split; [congruence | done] | by intros [_ ?]].
Qed.

Lemma dict_set_keys {V : Type} (d : list (string * V)) k v :
  ((dict_set d k v).*1 = d.*1) \/
  ((k ∉ d.*1) /\ ((dict_set d k v).*1 = d.*1 ++ [k])).
Proof.
  induction d as [|[k' v'] d IH]; csimpl.
  - right. split; [apply not_elem_of_nil | done].
  - case_decide as Hk; csimpl.
    + subst. by left.
    + destruct IH as [-> | [Hnin ->]]; [by left | right].
      split; [|done]. rewrite not_elem_of_cons. split; [congruence | done].
Qed.

Lemma dict_set_NoDup {V : Type} (d : list (string * V)) k v :
  NoDup d.*1 -> NoDup (dict_set d k v).*1.
Proof.
  intros Hnd. destruct (dict_set_keys d k v) as [-> | [Hnin ->]]; [done |].
  apply NoDup_app. split; [done |]. split; [|apply NoDup_singleton].
  intros x Hx ->%list_elem_of_singleton. done.
Qed.

Lemma dict_set_elem {V : Type} (d : list (string * V)) k v k' v' :
  (k', v') ∈ dict_set d k v -> (k' = k /\ v' = v) \/ (k', v') ∈ d.
Proof.
  induction d as [|[k0 v0] d IH]; simpl.
  - intros [[= -> ->]|[]%elem_of_nil]%elem_of_cons. by left.
  - case_decide as Hk.
    + subst k0. intros [[= -> ->]|Hin]%elem_of_cons; [by left |].
      right. by apply list_elem_of_further.
    + intros [[= -> ->]|Hin]%elem_of_cons.
      * right. apply list_elem_of_here.
      * destruct (IH Hin) as [?|?]; [by left | right].
        by apply list_elem_of_further.
Qed.

Lemma dict_get_set_eq {V : Type} (d : list (string * V)) k v :
  dict_get (dict_set d k v) k = Some v.
Proof.
  induction d as [|[k0 v0] d IH]; simpl.
  - by rewrite decide_True.
  - case_decide as Hk; simpl; [by rewrite decide_True |].
    by rewrite decide_False.
Qed.

Lemma dict_get_set_ne {V : Type} (d : list (string * V)) k v k' :
  k ≠ k' -> dict_get (dict_set d k v) k' = dict_get d k'.
Proof.
  intros Hne. induction d as [|[k0 v0] d IH]; simpl.
  - by rewrite decide_False.
  - case_decide as Hk; simpl.
    + subst k0. by rewrite !decide_False.
    + by rewrite IH.
Qed.

Lemma classify_named templates pg company :
  V2.classify templates pg = Some company -> company ≠ "".
Proof.
  destruct pg as [|text layout_feats]; simpl; [done |].
  destruct (identify_page text layout_feats templates) as [[co|]|]; try done.
  case_decide; [done |]. by intros [= <-].
Qed.

Lemma category_of_named templates docs im company :
  category_of templates docs im = Some company -> company ≠ "".
Proof.
  unfold category_of.
  destruct (V2.page_at docs (V2.img_doc im) (V2.img_page im)) as [pg|]; [|done].
  apply classify_named.
Qed.

Section Routing.
Variable templates : templates_t.
Variable writable : string -> bool.
Variable docs : list V2.document.

Lemma worker_category_more_owners owners company w :
  worker_category templates docs owners w ->
  worker_category templates docs (owners ++ [company]) w.
Proof.
  destruct w; simpl; try done.
  intros (co & Hco & Hcat). exists co. split; [|done].
  by apply lookup_app_l_Some.
Qed.

Lemma routing_init : routing templates docs [] (V2.init docs).
Proof.
  split; simpl; try done.
  - intros company addr []%elem_of_nil.
  - constructor.
Qed.

Lemma routing_main_step owners c c' :
  routing templates docs owners c ->
  V2.main_step writable c = Some c' ->
  routing templates docs owners c'.
Proof.
  intros [Hlen Hheap Hdict Hkeys Hnamed Hworkers] Hstep. unfold V2.main_step in Hstep.
  destruct (V2.finished c); [done |]. case_decide.
  - destruct (V2.tasks c !! V2.yielded c) as [[]|]; try done.
    destruct (truediv _ _); injection Hstep as <-; by split.
  - destruct (V2.pdf_file_paths c) as [|doc rest]; injection Hstep as <-;
      [by split |].
    split; simpl; try done.
    apply Forall_lookup. intros i w Hw.
    rewrite list_lookup_imap in Hw. by destruct (doc !! i); simplify_eq/=.
Qed.

Lemma routing_worker_step owners i c c' :
  V2.invariant templates writable docs c ->
  routing templates docs owners c ->
  V2.worker_step templates i c = Some c' ->
  exists owners', routing templates docs owners' c'.
Proof.
  intros Hinv [Hlen Hheap Hdict Hkeys Hnamed Hworkers] Hstep.
  unfold V2.worker_step in Hstep.
  destruct (V2.tasks c !! i) as [w|] eqn:Hw; [|done]. simpl in Hstep.
  destruct (V2.process_page templates w (V2.shared c)) as [[w' st']|] eqn:Hpp;
    [|done].
  simpl in Hstep. injection Hstep as <-.
  assert (Hwcat : worker_category templates docs owners w)
    by (by eapply Forall_lookup_1).
  assert (Hwok : V2.worker_ok templates docs (V2.next_doc c) w).
  { eapply Forall_lookup_1; [apply Hinv | done]. }
  destruct w as [pn pdf pg | co im | co im | co im | a im |]; simpl in Hpp.
  - (* Start *)
    exists owners. destruct Hwok as [_ Hpg].
    destruct (V2.classify templates pg) as [company|] eqn:Hclass;
      simplify_eq/=; split; simpl; try done; apply Forall_insert; try done.
    cbn [worker_category]. unfold category_of. cbn [V2.img_doc V2.img_page].
    by rewrite Hpg.
  - (* Check *)
    exists owners.
    destruct (dict_get _ _); simplify_eq/=; split; simpl; try done;
      by apply Forall_insert.
  - (* Create *)
    exists (owners ++ [co]). simplify_eq/=. split; simpl.
    + by rewrite !length_app, Hlen.
    + intros addr company images Ho Hh.
      destruct (decide (addr < length owners)) as [Hlt|Hge].
      * rewrite lookup_app_l in Ho by done.
        rewrite lookup_app_l in Hh by lia. by eapply Hheap.
      * rewrite lookup_app_r in Hh by lia.
        destruct (addr - length (V2.heap (V2.shared c))) as [|n]; simplify_eq/=.
        constructor.
    + intros company addr [[-> ->]|Hin]%dict_set_elem.
      * rewrite <- Hlen. by rewrite lookup_app_r, Nat.sub_diag.
      * apply lookup_app_l_Some. by apply Hdict.
    + by apply dict_set_NoDup.
    + apply Forall_app. split; [done |]. apply Forall_singleton.
      by eapply category_of_named.
    + apply Forall_insert.
      * eapply Forall_impl; [done |]. intros w. apply worker_category_more_owners.
      * done.
  - (* Load *)
    exists owners.
    destruct (dict_get _ _) as [addr|] eqn:Hget; simplify_eq/=;
      split; simpl; try done; apply Forall_insert; try done.
    simpl. exists co. split; [|done]. by apply Hdict, dict_get_elem.
  - (* Append *)
    exists owners. destruct Hwcat as (company & Ho & Hcat).
    destruct (V2.heap (V2.shared c) !! a) as [images|] eqn:Ha; simplify_eq/=;
      split; simpl; try done; try (by apply Forall_insert).
    + by rewrite length_insert.
    + intros addr company' images' Ho' Hh.
      destruct (decide (addr = a)) as [->|Hne].
      * rewrite list_lookup_insert_eq in Hh by (by eapply lookup_lt_Some).
        simplify_eq. apply Forall_app. split; [by eapply Hheap |].
        by apply Forall_singleton.
      * rewrite list_lookup_insert_ne in Hh by done. by eapply Hheap.
  - done.
Qed.
End Routing.

Section Routing2.
Variable templates : templates_t.
Variable writable : string -> bool.
Variable docs : list V2.document.

Lemma routing_run sched c c' owners :
  V2.invariant templates writable docs c ->
  routing templates docs owners c ->
  V2.run templates writable sched c = Some c' ->
  exists owners', routing templates docs owners' c'.
Proof.
  revert c owners. induction sched as [|a sched IH]; intros c owners Hinv Hro Hrun;
    simpl in Hrun.
  - injection Hrun as <-. by exists owners.
  - destruct (V2.step templates writable a c) as [c1|] eqn:Hstep; [|done].
    simpl in Hrun.
    assert (Hinv1 : V2.invariant templates writable docs c1)
      by (by eapply invariant_step).
    destruct a as [|i]; simpl in Hstep.
    + eapply IH; [done | | done]. by eapply routing_main_step.
    + destruct (routing_worker_step _ _ _ _ _ _ _ Hinv Hro Hstep) as [owners1 Hro1].
      by eapply IH.
Qed.

Lemma routing_reachable sched c :
  V2.run templates writable sched (V2.init docs) = Some c ->
  exists owners, routing templates docs owners c.
Proof.
  intros Hrun. eapply routing_run; [apply invariant_init | | done].
  apply routing_init.
Qed.

Lemma buckets_elem_addr (st : V2.store) company images :
  (company, images) ∈ V2.buckets st ->
  exists addr, (company, addr) ∈ V2.company_images st /\
               images = default [] (V2.heap st !! addr).
Proof.
  unfold V2.buckets. intros Hin.
  apply list_elem_of_fmap in Hin as ([company' addr] & [= -> ->] & Hin).
  by exists addr.
Qed.

Lemma buckets_keys (st : V2.store) : (V2.buckets st).*1 = (V2.company_images st).*1.
Proof.
  unfold V2.buckets. rewrite <- list_fmap_compose.
  apply list_fmap_ext. by intros _ [company addr] _.
Qed.

Lemma bucket_image_category sched c company images im :
  V2.run templates writable sched (V2.init docs) = Some c ->
  (company, images) ∈ V2.buckets (V2.shared c) ->
  im ∈ images ->
  category_of templates docs im = Some company.
Proof.
  intros Hrun Hin Him.
  destruct (routing_reachable _ _ Hrun) as [owners Hro].
  apply buckets_elem_addr in Hin as (addr & Hdict & ->).
  destruct (V2.heap (V2.shared c) !! addr) as [images|] eqn:Haddr;
    [|by apply elem_of_nil in Him].
  simpl in Him.
  pose proof (ro_heap _ _ _ _ Hro addr company images
                (ro_dict _ _ _ _ Hro _ _ Hdict) Haddr) as Hall.
  rewrite Forall_forall in Hall. by apply Hall.
Qed.

(** X11.  Routing is by classification: at every point of every run, a page
    found in the bucket of a category is a page that the classifier assigns
    to that category, and so is a page of a document written for it. *)
Theorem bucket_pages_classified sched c company images im :
  V2.run templates writable sched (V2.init docs) = Some c ->
  (company, images) ∈ V2.buckets (V2.shared c) \/
  (exists out e, V2.finished c = Some (out, e) /\ (company, images) ∈ out) ->
  im ∈ images ->
  exists pg,
    V2.page_at docs (V2.img_doc im) (V2.img_page im) = Some pg /\
    V2.classify templates pg = Some company.
Proof.
  intros Hrun Hbucket Him.
  pose proof (invariant_reachable _ _ _ _ _ Hrun) as Hinv.
  assert (Hin : (company, images) ∈ V2.buckets (V2.shared c)).
  { destruct Hbucket as [Hin | (out & e & Hfin & Hin)]; [done |].
    destruct Hinv as [_ _ _ _ _ _ _ _ Hfinished].
    destruct (Hfinished _ Hfin) as (_ & _ & Hout).
    eapply create_company_pdfs_elem. by rewrite <- Hout. }
  pose proof (bucket_image_category _ _ _ _ _ Hrun Hin Him) as Hcat.
  unfold category_of in Hcat.
  destruct (V2.page_at docs (V2.img_doc im) (V2.img_page im)) as [pg|]; [|done].
  by exists pg.
Qed.

(** X12.  The shared dictionary has one entry per category and no entry for
    the category named by the empty string, so [create_company_pdfs] writes
    at most one document per category and none for the empty name. *)
Theorem buckets_one_per_category sched c :
  V2.run templates writable sched (V2.init docs) = Some c ->
  NoDup (V2.buckets (V2.shared c)).*1 /\
  ("" ∉ (V2.buckets (V2.shared c)).*1) /\
  (forall out e,
     V2.finished c = Some (out, e) -> NoDup out.*1 /\ ("" ∉ out.*1)).
Proof.
  intros Hrun. destruct (routing_reachable _ _ Hrun) as [owners Hro].
  pose proof (invariant_reachable _ _ _ _ _ Hrun) as Hinv.
  assert (Hkeys : NoDup (V2.buckets (V2.shared c)).*1)
    by (rewrite buckets_keys; apply Hro).
  assert (Hnamed : "" ∉ (V2.buckets (V2.shared c)).*1).
  { rewrite buckets_keys. intros Hin.
    apply list_elem_of_fmap in Hin as ([company addr] & Heq & Hin).
    simpl in Heq. subst company.
    pose proof (ro_dict _ _ _ _ Hro _ _ Hin) as Ho.
    pose proof (ro_named _ _ _ _ Hro) as Hall.
    eapply Forall_lookup_1 in Hall; [|done]. done. }
  split; [done |]. split; [done |].
  intros out e Hfin.
  destruct Hinv as [_ _ _ _ _ _ _ _ Hfinished].
  destruct (Hfinished _ Hfin) as (_ & _ & Hout).
  assert (Hsub : out `sublist_of` V2.buckets (V2.shared c)).
  { assert (forall b, (V2.create_company_pdfs writable b).1 `sublist_of` b) as Hpre.
    { induction b as [|[co imgs] b IH]; simpl; [done |].
      destruct (writable co); simpl; [|apply sublist_nil_l].
      destruct (V2.create_company_pdfs writable b) as [written e']; simpl in *.
      by apply sublist_skip. }
    specialize (Hpre (V2.buckets (V2.shared c))). by rewrite <- Hout in Hpre. }
  assert (Hsub1 : out.*1 `sublist_of` (V2.buckets (V2.shared c)).*1)
    by (by apply fmap_sublist).
  split.
  - by eapply sublist_NoDup.
  - intros Hin. apply Hnamed. by eapply elem_of_sublist.
Qed.
End Routing2.

Section Placement.
Variable templates : templates_t.
Variable writable : string -> bool.
Variable docs : list V2.document.

Lemma placement_init : placement (V2.init docs).
Proof. split; simpl; [intros i w Hw; by rewrite lookup_nil in Hw | constructor | constructor]. Qed.

Lemma placement_main_step c c' :
  placement c -> V2.main_step writable c = Some c' -> placement c'.
Proof.
  intros [Hworkers Hheap Hnodup] Hstep. unfold V2.main_step in Hstep.
  destruct (V2.finished c); [done |]. case_decide.
  - destruct (V2.tasks c !! V2.yielded c) as [[]|]; try done.
    destruct (truediv _ _); injection Hstep as <-; by split.
  - destruct (V2.pdf_file_paths c) as [|doc rest]; injection Hstep as <-;
      [by split |].
    split; simpl; [| |done].
    + intros i w Hi.
      rewrite list_lookup_imap in Hi. destruct (doc !! i); simplify_eq/=.
      split; [done | lia].
    + eapply Forall_impl; [exact Hheap |]. intros images Hall.
      eapply Forall_impl; [exact Hall |].
      intros im [Hlt | [Heq _]]; left; simpl; lia.
Qed.

Lemma placement_worker_step i c c' :
  placement c -> V2.worker_step templates i c = Some c' -> placement c'.
Proof.
  intros [Hworkers Hheap Hnodup] Hstep.
  unfold V2.worker_step in Hstep.
  destruct (V2.tasks c !! i) as [w|] eqn:Hw; [|done]. simpl in Hstep.
  destruct (V2.process_page templates w (V2.shared c)) as [[w' st']|] eqn:Hpp;
    [|done].
  simpl in Hstep. injection Hstep as <-.
  assert (Hrun : w ≠ V2.Done) by (by destruct w).
  assert (Hi : i < length (V2.tasks c)) by (by eapply lookup_lt_Some).
  destruct (process_page_heap templates (V2.next_doc c) i _ _ _ _ Hpp
              (Hworkers _ _ Hw)) as [Hat' Hheap'].
  assert (Hkeep : forall im, V2.appended c im ->
            V2.appended
              {| V2.pdf_file_paths := V2.pdf_file_paths c;
                 V2.next_doc := V2.next_doc c;
                 V2.tasks := <[i := w']> (V2.tasks c);
                 V2.yielded := V2.yielded c; V2.shared := st';
                 V2.total_pages := V2.total_pages c;
                 V2.completed_pages := V2.completed_pages c;
                 V2.progress_var := V2.progress_var c;
                 V2.finished := V2.finished c |} im).
  { intros im [Hlt | [Heq Hdone]]; [by left | right]. simpl.
    split; [done |]. rewrite list_lookup_insert_ne; [done |].
    intros ->. congruence. }
  assert (Hold : Forall (Forall (V2.appended
              {| V2.pdf_file_paths := V2.pdf_file_paths c;
                 V2.next_doc := V2.next_doc c;
                 V2.tasks := <[i := w']> (V2.tasks c);
                 V2.yielded := V2.yielded c; V2.shared := st';
                 V2.total_pages := V2.total_pages c;
                 V2.completed_pages := V2.completed_pages c;
                 V2.progress_var := V2.progress_var c;
                 V2.finished := V2.finished c |})) (V2.heap (V2.shared c))).
  { eapply Forall_impl; [exact Hheap |]. intros images Hall.
    eapply Forall_impl; [exact Hall | apply Hkeep]. }
  split; simpl.
  - intros j y Hj. destruct (decide (j = i)) as [->|Hji].
    + rewrite list_lookup_insert_eq in Hj by done. by simplify_eq.
    + rewrite list_lookup_insert_ne in Hj by done. by apply Hworkers.
  - destruct Hheap' as [-> | [-> | (addr & images & im & -> & -> & Haddr & ->)]].
    + done.
    + apply Forall_app. split; [done |]. by apply Forall_singleton.
    + apply Forall_insert; [done |].
      apply Forall_app. split; [by eapply Forall_lookup_1 |].
      apply Forall_singleton. destruct (Hworkers _ _ Hw) as [Hpage Hdoc].
      right. simpl. split; [done |].
      rewrite Hpage. by rewrite list_lookup_insert_eq.
  - destruct Hheap' as [-> | [-> | (addr & images & im & -> & -> & Haddr & ->)]].
    + done.
    + apply Forall_app. split; [done |]. apply Forall_singleton. constructor.
    + apply Forall_insert; [done |].
      apply NoDup_app. split; [by eapply Forall_lookup_1 |].
      split; [|apply NoDup_singleton].
      intros x Hx ->%list_elem_of_singleton.
      destruct (Hworkers _ _ Hw) as [Hpage Hdoc].
      eapply Forall_lookup_1 in Hheap; [|done].
      rewrite Forall_forall in Hheap.
      destruct (Hheap _ Hx) as [Hlt | [_ Hdone]]; [lia |].
      rewrite Hpage in Hdone. congruence.
Qed.

Lemma placement_reachable sched c :
  V2.run templates writable sched (V2.init docs) = Some c -> placement c.
Proof.
  assert (Hgen : forall c0, placement c0 ->
            V2.run templates writable sched c0 = Some c -> placement c).
  { induction sched as [|a sched IH]; intros c0 Hpl Hrun; simpl in Hrun.
    - by injection Hrun as <-.
    - destruct (V2.step templates writable a c0) as [c1|] eqn:Hstep; [|done].
      apply (IH c1); [|done]. destruct a as [|i]; simpl in Hstep.
      + by eapply placement_main_step.
      + by eapply placement_worker_step. }
  apply Hgen, placement_init.
Qed.
End Placement.

Section MoreRun.
Variable templates : templates_t.
Variable writable : string -> bool.
Variable docs : list V2.document.

Lemma written_in_buckets c out e b :
  V2.invariant templates writable docs c ->
  V2.finished c = Some (out, e) -> b ∈ out -> b ∈ V2.buckets (V2.shared c).
Proof.
  intros [_ _ _ _ _ _ _ _ Hfinished] Hfin Hin.
  destruct (Hfinished _ Hfin) as (_ & _ & Hout).
  eapply create_company_pdfs_elem. by rewrite <- Hout.
Qed.

(** X13.  No page is routed twice: at every point of every run a bucket holds
    a page at most once, and a page held by two buckets is held by one and
    the same category; the same is true of the documents written. *)
Theorem page_routed_once sched c :
  V2.run templates writable sched (V2.init docs) = Some c ->
  (forall company images,
     (company, images) ∈ V2.buckets (V2.shared c) -> NoDup images) /\
  (forall company1 images1 company2 images2 im,
     (company1, images1) ∈ V2.buckets (V2.shared c) ->
     (company2, images2) ∈ V2.buckets (V2.shared c) ->
     im ∈ images1 -> im ∈ images2 -> company1 = company2) /\
  (forall out e,
     V2.finished c = Some (out, e) ->
     (forall company images, (company, images) ∈ out -> NoDup images) /\
     (forall company1 images1 company2 images2 im,
        (company1, images1) ∈ out -> (company2, images2) ∈ out ->
        im ∈ images1 -> im ∈ images2 -> company1 = company2)).
Proof.
  intros Hrun.
  pose proof (invariant_reachable _ _ _ _ _ Hrun) as Hinv.
  pose proof (placement_reachable _ _ _ _ _ Hrun) as [_ _ Hnodup].
  assert (Hone : forall company images,
            (company, images) ∈ V2.buckets (V2.shared c) -> NoDup images).
  { intros company images [->|Hin]%buckets_elem; [constructor |].
    rewrite Forall_forall in Hnodup. by apply Hnodup. }
  assert (Hsame : forall company1 images1 company2 images2 im,
            (company1, images1) ∈ V2.buckets (V2.shared c) ->
            (company2, images2) ∈ V2.buckets (V2.shared c) ->
            im ∈ images1 -> im ∈ images2 -> company1 = company2).
  { intros company1 images1 company2 images2 im Hb1 Hb2 Him1 Him2.
    pose proof (bucket_image_category _ _ _ _ _ _ _ _ Hrun Hb1 Him1) as H1.
    pose proof (bucket_image_category _ _ _ _ _ _ _ _ Hrun Hb2 Him2) as H2.
    congruence. }
  split; [done |]. split; [done |].
  intros out e Hfin. split.
  - intros company images Hin. eapply Hone. by eapply written_in_buckets.
  - intros company1 images1 company2 images2 im Hb1 Hb2.
    eapply Hsame; by eapply written_in_buckets.
Qed.

Lemma finished_all_returned c out :
  V2.invariant templates writable docs c ->
  V2.finished c = Some out ->
  V2.pdf_file_paths c = [] /\
  Forall (fun w => w = V2.Done) (V2.tasks c) /\
  out = V2.create_company_pdfs writable (V2.buckets (V2.shared c)).
Proof.
  intros [_ _ _ _ Hdone _ _ _ Hfinished] Hfin.
  destruct (Hfinished _ Hfin) as (Hy & Hpaths & Hout).
  split; [done |]. split; [|done].
  apply Forall_lookup. intros i w Hw.
  rewrite Hdone in Hw; [by simplify_eq |].
  apply lookup_lt_Some in Hw. lia.
Qed.

(** X14.  The documents are assembled behind a barrier: once
    [create_company_pdfs] has run, every file has been dispatched, every
    [process_page] call has returned, the counter has reached the total, the
    documents written are those of the dictionary as it then stands, and no
    thread can move any more. *)
Theorem assembly_after_all_pages sched c out :
  V2.run templates writable sched (V2.init docs) = Some c ->
  V2.finished c = Some out ->
  V2.pdf_file_paths c = [] /\
  Forall (fun w => w = V2.Done) (V2.tasks c) /\
  V2.completed_pages c = V2.total_pages c /\
  out = V2.create_company_pdfs writable (V2.buckets (V2.shared c)) /\
  (forall a, V2.step templates writable a c = None).
Proof.
  intros Hrun Hfin.
  pose proof (invariant_reachable _ _ _ _ _ Hrun) as Hinv.
  pose proof (finished_completed _ _ _ _ Hinv (mk_is_Some _ _ Hfin)) as Hall.
  destruct (finished_all_returned _ _ Hinv Hfin) as (Hpaths & Hreturned & Hout).
  split; [done |]. split; [done |]. split; [done |]. split; [done |].
  intros [|i]; simpl.
  - unfold V2.main_step. by rewrite Hfin.
  - unfold V2.worker_step.
    destruct (V2.tasks c !! i) as [w|] eqn:Hw; [|done]. simpl.
    eapply Forall_lookup_1 in Hreturned; [|done]. by subst w.
Qed.

Lemma measure_run sched c0 c :
  V2.invariant templates writable docs c0 ->
  V2.run templates writable sched c0 = Some c ->
  length sched + V2.measure c <= V2.measure c0.
Proof.
  revert c0. induction sched as [|a sched IH]; intros c0 Hinv Hrun; simpl in Hrun.
  - injection Hrun as <-. simpl. lia.
  - destruct (V2.step templates writable a c0) as [c1|] eqn:Hstep; [|done].
    simpl in Hrun.
    pose proof (measure_step _ _ _ _ _ _ Hinv Hstep) as Hlt.
    specialize (IH c1 (invariant_step _ _ _ _ _ _ Hinv Hstep) Hrun).
    simpl. lia.
Qed.

Lemma measure_init :
  V2.measure (V2.init docs) = 1 + length docs + 6 * sum_list (length <$> docs).
Proof.
  unfold V2.measure; simpl.
  assert (sum_list ((fun doc : V2.document => S (length doc + (length doc + (length doc + (length doc + (length doc + (length doc + 0))))))) <$> docs)
          = length docs + 6 * sum_list (length <$> docs)) as ->; [|lia].
  induction docs as [|doc ds IH]; [done |].
  rewrite !fmap_cons. simpl. rewrite IH. lia.
Qed.

(** X15.  [process_files] terminates under every schedule: a run over files
    with [n] pages in all takes at most [1 + number of files + 6 n] steps of
    its threads. *)
Theorem run_length_bounded sched c :
  V2.run templates writable sched (V2.init docs) = Some c ->
  length sched <= 1 + length docs + 6 * sum_list (length <$> docs).
Proof.
  intros Hrun.
  pose proof (measure_run _ _ _ (invariant_init _ _ _) Hrun) as Hle.
  rewrite measure_init in Hle. lia.
Qed.

End MoreRun.

Section Complete.
Variable templates : templates_t.
Variable writable : string -> bool.
Variable docs : list V2.document.

Lemma complete_init : complete templates docs (V2.init docs).
Proof.
  split; simpl; try done.
  intros im pg company _ _ [Hlt | [Heq _]]; simpl in *; lia.
Qed.

Lemma complete_main_step c c' :
  V2.invariant templates writable docs c ->
  complete templates docs c ->
  V2.main_step writable c = Some c' ->
  complete templates docs c'.
Proof.
  intros Hinv [Hcover Hdict Hplaced Hworkers] Hstep.
  unfold V2.main_step in Hstep.
  destruct (V2.finished c); [done |]. case_decide as Hlt.
  - destruct (V2.tasks c !! V2.yielded c) as [[]|]; try done.
    destruct (truediv _ _); injection Hstep as <-; by split.
  - destruct (V2.pdf_file_paths c) as [|doc rest] eqn:Hpaths;
      injection Hstep as <-; [by split |].
    destruct Hinv as [Hdocs _ _ Hyield Hdone _ _ _ _].
    assert (Hdoc : docs !! V2.next_doc c = Some doc).
    { rewrite <- (Nat.add_0_r (V2.next_doc c)), <- lookup_drop, <- Hdocs.
      by rewrite Hpaths. }
    split; simpl; try done.
    + intros d i pg Hd Hpg. assert (d = V2.next_doc c) as -> by lia.
      unfold V2.page_at in Hpg. rewrite Hdoc in Hpg. simpl in Hpg.
      rewrite list_lookup_imap, Hpg. by eexists.
    + intros im pg company Hpg Hclass Happ. apply (Hplaced im pg company Hpg Hclass).
      destruct Happ as [Hlt' | [_ Hstart]]; simpl in *.
      * destruct (decide (S (V2.img_doc im) < V2.next_doc c)) as [|Hge];
          [by left | right].
        split; [lia |].
        destruct (Hcover (V2.img_doc im) (V2.img_page im) pg) as [w Hw];
          [lia | done |].
        rewrite Hw. f_equal. rewrite Hdone in Hw; [by simplify_eq |].
        apply lookup_lt_Some in Hw. lia.
      * rewrite list_lookup_imap in Hstart.
        by destruct (doc !! V2.img_page im).
    + apply Forall_lookup. intros i w Hw.
      rewrite list_lookup_imap in Hw. by destruct (doc !! i); simplify_eq/=.
Qed.

Lemma placed_create (st : V2.store) company im co :
  dict_get (V2.company_images st) company = None ->
  placed st im co ->
  placed {| V2.heap := V2.heap st ++ [[]];
            V2.company_images :=
              dict_set (V2.company_images st) company (length (V2.heap st)) |}
    im co.
Proof.
  intros Hnone (addr & images & Hget & Haddr & Hin).
  exists addr, images; simpl. split; [|split; [|done]].
  - rewrite dict_get_set_ne; [done |]. intros ->. congruence.
  - by apply lookup_app_l_Some.
Qed.

Lemma placed_append (st : V2.store) a l x im co :
  V2.heap st !! a = Some l ->
  placed st im co ->
  placed {| V2.heap := <[a := l ++ [x]]> (V2.heap st);
            V2.company_images := V2.company_images st |} im co.
Proof.
  intros Ha (addr & images & Hget & Haddr & Hin).
  destruct (decide (addr = a)) as [->|Hne].
  - exists a, (l ++ [x]); simpl. split; [done |]. split.
    + apply list_lookup_insert_eq. by eapply lookup_lt_Some.
    + simplify_eq. apply elem_of_app. by left.
  - exists addr, images; simpl. split; [done |]. split; [|done].
    by rewrite list_lookup_insert_ne.
Qed.

Lemma worker_view_idle st w :
  w = V2.Done \/ V2.started w = false -> worker_view templates docs st w.
Proof. by intros [-> | Hw]; [|destruct w]. Qed.

Lemma complete_worker_step owners i w c c' :
  V2.invariant templates writable docs c ->
  V2.in_order c ->
  routing templates docs owners c ->
  complete templates docs c ->
  V2.tasks c !! i = Some w ->
  (forall j y, V2.tasks c !! j = Some y -> j < i -> y = V2.Done) ->
  V2.worker_step templates i c = Some c' ->
  complete templates docs c'.
Proof.
  intros Hinv [Htasks Hat _] Hro [Hcover Hdict Hplaced Hviews] Hw Hfirst Hstep.
  unfold V2.worker_step in Hstep. rewrite Hw in Hstep. simpl in Hstep.
  destruct (V2.process_page templates w (V2.shared c)) as [[w' st']|] eqn:Hpp;
    [|done].
  simpl in Hstep. injection Hstep as <-.
  assert (Hrun : w ≠ V2.Done) by (by destruct w).
  assert (Hi : i < length (V2.tasks c)) by (by eapply lookup_lt_Some).
  assert (Hwok : V2.worker_ok templates docs (V2.next_doc c) w).
  { eapply Forall_lookup_1; [apply Hinv | done]. }
  assert (Hwcat : worker_category templates docs owners w).
  { eapply Forall_lookup_1; [apply Hro | done]. }
  assert (Hview : worker_view templates docs (V2.shared c) w)
    by (by eapply Forall_lookup_1).
  pose proof (Hat _ _ Hw) as Hwat.
  (* the other calls are waiting or have returned *)
  assert (Hidle : forall j wj, j ≠ i -> V2.tasks c !! j = Some wj ->
            wj = V2.Done \/ V2.started wj = false).
  { intros j wj Hji Hj. destruct (decide (j < i)) as [Hlt|Hge].
    - left. by eapply Hfirst.
    - destruct (Htasks i j w wj) as [|]; try done; [lia | by right]. }
  assert (Hviews' : forall st0,
            worker_view templates docs st0 w' ->
            Forall (worker_view templates docs st0) (<[i := w']> (V2.tasks c))).
  { intros st0 Hw'. apply Forall_lookup. intros j wj Hj.
    destruct (decide (j = i)) as [->|Hji].
    - rewrite list_lookup_insert_eq in Hj by done. by simplify_eq.
    - rewrite list_lookup_insert_ne in Hj by done.
      apply worker_view_idle. by eapply Hidle. }
  assert (Hcover' : forall d j pg,
            S d = V2.next_doc c -> V2.page_at docs d j = Some pg ->
            is_Some (<[i := w']> (V2.tasks c) !! j)).
  { intros d j pg Hd Hpg. apply lookup_lt_is_Some. rewrite length_insert.
    apply lookup_lt_is_Some. by eapply Hcover. }
  (* an image appended after the step was appended before, or is that of
     this call, which has returned *)
  assert (Hstill : forall im,
            S (V2.img_doc im) < V2.next_doc c \/
            (S (V2.img_doc im) = V2.next_doc c /\
             <[i := w']> (V2.tasks c) !! V2.img_page im = Some V2.Done) ->
            V2.appended c im \/
            (S (V2.img_doc im) = V2.next_doc c /\ V2.img_page im = i /\
             w' = V2.Done)).
  { intros im [Hlt | [Heq Hdone]]; [by left; left |].
    destruct (decide (V2.img_page im = i)) as [Hpage|Hpage].
    - right. rewrite Hpage, list_lookup_insert_eq in Hdone by done.
      by simplify_eq.
    - left. right. by rewrite list_lookup_insert_ne in Hdone. }
  destruct w as [pn pdf pg0 | co im0 | co im0 | co im0 | a im0 |]; simpl in Hpp.
  - (* Start *)
    destruct Hwok as [Hpdf Hpg0]. destruct Hwat as [-> _].
    destruct (V2.classify templates pg0) as [company0|] eqn:Hclass0;
      simplify_eq/=; (split; simpl; [done | done | | by apply Hviews']).
    + intros im pg company Hpg Hclass Happ.
      destruct (Hstill im Happ) as [Hold | (_ & _ & [=])]. by eapply Hplaced.
    + intros im pg company Hpg Hclass Happ.
      destruct (Hstill im Happ) as [Hold | (Hdoc & Hpage & _)];
        [by eapply Hplaced |].
      assert (V2.img_doc im = pdf) as Hd by lia.
      rewrite Hd, Hpage in Hpg. congruence.
  - (* Check *)
    destruct (dict_get _ _) eqn:Hget; simplify_eq/=;
      (split; simpl; [done | done | | by apply Hviews']);
      intros im pg company Hpg Hclass Happ;
      (destruct (Hstill im Happ) as [Hold | (_ & _ & [=])]; by eapply Hplaced).
  - (* Create *)
    simplify_eq/=. split; simpl; [done | | |].
    + intros company addr Hget. rewrite length_app; simpl.
      destruct (decide (co = company)) as [->|Hne].
      * rewrite dict_get_set_eq in Hget. simplify_eq. lia.
      * rewrite dict_get_set_ne in Hget by done. apply Hdict in Hget. lia.
    + intros im pg company Hpg Hclass Happ.
      destruct (Hstill im Happ) as [Hold | (_ & _ & [=])].
      apply placed_create; [done |]. by eapply Hplaced.
    + apply Hviews'. simpl. rewrite dict_get_set_eq. by eexists.
  - (* Load *)
    destruct Hview as [addr Hget]. rewrite Hget in Hpp. simplify_eq/=.
    split; simpl; [done | done | |].
    + intros im pg company Hpg Hclass Happ.
      destruct (Hstill im Happ) as [Hold | (_ & _ & [=])]. by eapply Hplaced.
    + apply Hviews'. simpl. by exists co.
  - (* Append *)
    destruct Hview as (company0 & Hcat0 & Hget0).
    destruct (lookup_lt_is_Some_2 _ _ (Hdict _ _ Hget0)) as [images Himages].
    rewrite Himages in Hpp. simplify_eq/=.
    destruct Hwat as [Hpage0 Hdoc0].
    split; simpl; [done | | | by apply Hviews'].
    + intros company addr Hget. rewrite length_insert. by eapply Hdict.
    + intros im pg company Hpg Hclass Happ.
      destruct (Hstill im Happ) as [Hold | (Hdoc & Hpage & _)].
      * apply placed_append; [done |]. by eapply Hplaced.
      * assert (im = im0) as ->.
        { destruct im, im0; simpl in *. f_equal; lia. }
        unfold category_of in Hcat0. rewrite Hpg in Hcat0. simpl in Hcat0.
        assert (company0 = company) as -> by congruence.
        exists a, (images ++ [im0]); simpl. split; [done |]. split.
        -- apply list_lookup_insert_eq. by eapply lookup_lt_Some.
        -- apply elem_of_app. right. apply list_elem_of_here.
  - done.
Qed.
End Complete.

Section InOrderComplete.
Variable templates : templates_t.
Variable writable : string -> bool.
Variable docs : list V2.document.

Lemma complete_run_in_order fuel c owners :
  V2.invariant templates writable docs c ->
  V2.in_order c ->
  routing templates docs owners c ->
  complete templates docs c ->
  complete templates docs (V2.run_in_order templates writable fuel c).
Proof.
  revert c owners. induction fuel as [|fuel IH]; intros c owners Hinv Hio Hro Hco;
    simpl; [done |].
  destruct (V2.step templates writable (V2.pick c) c) as [c1|] eqn:Hstep; [|done].
  assert (Hinv1 : V2.invariant templates writable docs c1)
    by (by eapply invariant_step).
  assert (Hio1 : V2.in_order c1) by (by eapply in_order_pick).
  unfold V2.pick in Hstep.
  destruct (list_find _ (V2.tasks c)) as [[i w]|] eqn:Hfind; simpl in Hstep.
  - apply list_find_Some in Hfind as (Hw & _ & Hfirst).
    assert (Hfirst' : forall j y, V2.tasks c !! j = Some y -> j < i -> y = V2.Done).
    { intros j y Hj Hlt. specialize (Hfirst j y Hj Hlt). by destruct y. }
    destruct (routing_worker_step _ _ _ _ _ _ _ Hinv Hro Hstep) as [owners1 Hro1].
    apply (IH c1 owners1); try done.
    exact (complete_worker_step _ _ _ owners i w c c1 Hinv Hio Hro Hco Hw Hfirst' Hstep).
  - apply (IH c1 owners); try done.
    + exact (routing_main_step _ _ _ _ _ _ Hro Hstep).
    + exact (complete_main_step _ _ _ _ _ Hinv Hco Hstep).
Qed.

(** X17.  In the run in which the calls return one after the other in page
    order, no matched page is lost: the run finishes, and every page that the
    classifier assigns to a category is in the bucket of that category, which
    holds only such pages, each once, in the order of the files and of the
    pages. *)
Theorem in_order_run_keeps_every_page fuel d i pg company :
  1 + length docs + 6 * sum_list (length <$> docs) <= fuel ->
  V2.page_at docs d i = Some pg ->
  V2.classify templates pg = Some company ->
  is_Some (V2.finished (V2.run_in_order templates writable fuel (V2.init docs))) /\
  exists images,
    (company, images)
    ∈ V2.buckets (V2.shared (V2.run_in_order templates writable fuel (V2.init docs))) /\
    {| V2.img_doc := d; V2.img_page := i |} ∈ images /\
    V2.page_order images /\
    NoDup images /\
    Forall (fun im => category_of templates docs im = Some company) images.
Proof.
  intros Hfuel Hpg Hclass.
  set (c := V2.run_in_order templates writable fuel (V2.init docs)).
  destruct (run_in_order_spec templates writable docs fuel _
              (invariant_init _ _ _) (in_order_init docs))
    as (Hinv & Hio & [sched Hrun] & Hfin).
  fold c in Hinv, Hio, Hrun, Hfin.
  assert (Hdone : is_Some (V2.finished c))
    by (apply Hfin; rewrite measure_init; lia).
  split; [done |].
  pose proof (complete_run_in_order fuel _ [] (invariant_init _ _ _)
                (in_order_init docs) (routing_init _ _) (complete_init _ _)) as Hco.
  fold c in Hco.
  destruct Hdone as [out Hout].
  destruct (finished_all_returned _ _ _ _ _ Hinv Hout)
    as (Hpaths & Hreturned & _).
  (* the call of the page has returned *)
  assert (Happ : V2.appended c {| V2.img_doc := d; V2.img_page := i |}).
  { assert (Hd : d < length docs).
    { unfold V2.page_at in Hpg. destruct (docs !! d) eqn:Hdoc; [|done].
      by eapply lookup_lt_Some. }
    assert (Hnd : length docs <= V2.next_doc c).
    { destruct Hinv as [Hdocs _ _ _ _ _ _ _ _]. rewrite Hpaths in Hdocs.
      symmetry in Hdocs. apply (f_equal length) in Hdocs.
      rewrite length_drop in Hdocs. simpl in Hdocs. lia. }
    destruct (decide (S d < V2.next_doc c)) as [|Hge]; [by left | right].
    simpl. split; [lia |].
    destruct (co_cover _ _ _ Hco d i pg) as [w Hw]; [lia | done |].
    rewrite Hw. f_equal. by eapply Forall_lookup_1 in Hreturned. }
  destruct (co_placed _ _ _ Hco {| V2.img_doc := d; V2.img_page := i |}
              pg company Hpg Hclass Happ)
    as (addr & images & Hget & Haddr & Hin).
  assert (Hbucket : (company, images) ∈ V2.buckets (V2.shared c)).
  { unfold V2.buckets. apply list_elem_of_fmap.
    exists (company, addr). split; [by rewrite Haddr | by apply dict_get_elem]. }
  exists images. split; [done |]. split; [done |]. split.
  { by eapply bucket_page_order. }
  split.
  { pose proof (placement_reachable _ _ _ _ _ Hrun) as [_ _ Hnodup].
    by eapply Forall_lookup_1 in Hnodup. }
  apply Forall_forall. intros im Him.
  by eapply bucket_image_category.
Qed.
End InOrderComplete.

(** ** Instances of the properties of version 0.0.2 *)

Lemma bucket_pages_classified_witness :
  V2.run Samples.invoices Samples.all_writable Samples.in_page_order
    (V2.init Samples.two_documents) = Some Samples.in_page_order_end /\
  ("X", [{| V2.img_doc := 0; V2.img_page := 0 |};
         {| V2.img_doc := 0; V2.img_page := 1 |};
         {| V2.img_doc := 0; V2.img_page := 2 |};
         {| V2.img_doc := 1; V2.img_page := 0 |};
         {| V2.img_doc := 1; V2.img_page := 1 |}])
  ∈ V2.buckets (V2.shared Samples.in_page_order_end) /\
  exists pg,
    V2.page_at Samples.two_documents 1 0 = Some pg /\
    V2.classify Samples.invoices pg = Some "X".
Proof.
  assert (Hrun : V2.run Samples.invoices Samples.all_writable Samples.in_page_order
                   (V2.init Samples.two_documents) = Some Samples.in_page_order_end)
    by reflexivity.
  assert (Hin : ("X", [{| V2.img_doc := 0; V2.img_page := 0 |};
                       {| V2.img_doc := 0; V2.img_page := 1 |};
                       {| V2.img_doc := 0; V2.img_page := 2 |};
                       {| V2.img_doc := 1; V2.img_page := 0 |};
                       {| V2.img_doc := 1; V2.img_page := 1 |}])
                ∈ V2.buckets (V2.shared Samples.in_page_order_end))
    by apply list_elem_of_here.
  split; [exact Hrun |]. split; [exact Hin |].
  apply (bucket_pages_classified Samples.invoices Samples.all_writable
           Samples.two_documents Samples.in_page_order Samples.in_page_order_end
           "X" _ {| V2.img_doc := 1; V2.img_page := 0 |} Hrun (or_introl Hin)).
  do 3 apply list_elem_of_further. apply list_elem_of_here.
Defined.

Lemma buckets_one_per_category_witness :
  V2.run Samples.invoices Samples.all_writable Samples.second_page_first
    (V2.init Samples.two_documents) = Some Samples.second_page_first_end /\
  NoDup (V2.buckets (V2.shared Samples.second_page_first_end)).*1 /\
  ("" ∉ (V2.buckets (V2.shared Samples.second_page_first_end)).*1).
Proof.
  assert (Hrun : V2.run Samples.invoices Samples.all_writable Samples.second_page_first
                   (V2.init Samples.two_documents)
                 = Some Samples.second_page_first_end)
    by reflexivity.
  split; [exact Hrun |].
  destruct (buckets_one_per_category Samples.invoices Samples.all_writable
              Samples.two_documents Samples.second_page_first
              Samples.second_page_first_end Hrun) as (Hkeys & Hnamed & _).
  split; [exact Hkeys | exact Hnamed].
Defined.

Lemma page_routed_once_witness :
  V2.run Samples.invoices Samples.all_writable Samples.second_page_first
    (V2.init Samples.two_documents) = Some Samples.second_page_first_end /\
  forall company images,
    (company, images) ∈ V2.buckets (V2.shared Samples.second_page_first_end) ->
    NoDup images.
Proof.
  assert (Hrun : V2.run Samples.invoices Samples.all_writable Samples.second_page_first
                   (V2.init Samples.two_documents)
                 = Some Samples.second_page_first_end)
    by reflexivity.
  split; [exact Hrun |].
  exact (proj1 (page_routed_once Samples.invoices Samples.all_writable
                  Samples.two_documents Samples.second_page_first
                  Samples.second_page_first_end Hrun)).
Defined.

Lemma assembly_after_all_pages_witness :
  V2.run Samples.invoices Samples.all_writable Samples.mixed_schedule
    (V2.init Samples.mixed_document) = Some Samples.mixed_end /\
  V2.finished Samples.mixed_end
  = Some ([("X", [{| V2.img_doc := 0; V2.img_page := 0 |}])], None) /\
  V2.pdf_file_paths Samples.mixed_end = [] /\
  Forall (fun w => w = V2.Done) (V2.tasks Samples.mixed_end) /\
  V2.completed_pages Samples.mixed_end = V2.total_pages Samples.mixed_end.
Proof.
  assert (Hrun : V2.run Samples.invoices Samples.all_writable Samples.mixed_schedule
                   (V2.init Samples.mixed_document) = Some Samples.mixed_end)
    by reflexivity.
  assert (Hfin : V2.finished Samples.mixed_end
                 = Some ([("X", [{| V2.img_doc := 0; V2.img_page := 0 |}])], None))
    by reflexivity.
  split; [exact Hrun |]. split; [exact Hfin |].
  destruct (assembly_after_all_pages Samples.invoices Samples.all_writable
              Samples.mixed_document Samples.mixed_schedule Samples.mixed_end _
              Hrun Hfin) as (Hpaths & Hreturned & Hall & _).
  split; [exact Hpaths |]. split; [exact Hreturned | exact Hall].
Defined.

Lemma run_length_bounded_witness :
  V2.run Samples.invoices Samples.all_writable Samples.in_page_order
    (V2.init Samples.two_documents) = Some Samples.in_page_order_end /\
  length Samples.in_page_order
  <= 1 + length Samples.two_documents
     + 6 * sum_list (length <$> Samples.two_documents).
Proof.
  assert (Hrun : V2.run Samples.invoices Samples.all_writable Samples.in_page_order
                   (V2.init Samples.two_documents) = Some Samples.in_page_order_end)
    by reflexivity.
  split; [exact Hrun |].
  exact (run_length_bounded Samples.invoices Samples.all_writable
           Samples.two_documents Samples.in_page_order
           Samples.in_page_order_end Hrun).
Defined.


Lemma in_order_run_keeps_every_page_witness :
  1 + length Samples.two_documents
  + 6 * sum_list (length <$> Samples.two_documents) <= 40 /\
  V2.page_at Samples.two_documents 1 0
  = Some (V2.Readable "Invoice 4" [Samples.block "Invoice 4" 10 10]) /\
  V2.classify Samples.invoices
    (V2.Readable "Invoice 4" [Samples.block "Invoice 4" 10 10]) = Some "X" /\
  exists images,
    ("X", images)
    ∈ V2.buckets
        (V2.shared (V2.run_in_order Samples.invoices Samples.all_writable 40
                      (V2.init Samples.two_documents))) /\
    {| V2.img_doc := 1; V2.img_page := 0 |} ∈ images.
Proof.
  assert (Hfuel : 1 + length Samples.two_documents
                  + 6 * sum_list (length <$> Samples.two_documents) <= 40)
    by (simpl; lia).
  assert (Hpg : V2.page_at Samples.two_documents 1 0
                = Some (V2.Readable "Invoice 4" [Samples.block "Invoice 4" 10 10]))
    by reflexivity.
  assert (Hclass : V2.classify Samples.invoices
                     (V2.Readable "Invoice 4" [Samples.block "Invoice 4" 10 10])
                   = Some "X")
    by reflexivity.
  split; [exact Hfuel |]. split; [exact Hpg |]. split; [exact Hclass |].
  destruct (in_order_run_keeps_every_page Samples.invoices Samples.all_writable
              Samples.two_documents 40 1 0 _ "X" Hfuel Hpg Hclass)
    as (_ & images & Hbucket & Hin & _).
  exists images. split; [exact Hbucket | exact Hin].
Defined.

(** ** Layout extraction *)















(** ** File names of version 0.0.1 *)

Lemma str_inj n m : str n = str m -> n = m.
Proof.
  unfold str. intros Heq.
  assert (Hu : Nat.to_uint n = Nat.to_uint m).
  { apply (f_equal NilEmpty.uint_of_string) in Heq.
    rewrite !NilEmpty.usu in Heq. congruence. }
  apply (f_equal Nat.of_uint) in Hu.
  by rewrite !DecimalNat.Unsigned.of_to in Hu.
Qed.

Lemma append_length s t :
  String.length (s +:+ t) = String.length s + String.length t.
Proof. induction s as [|a s IH]; simpl; [done | by rewrite IH]. Qed.

Lemma append_inv_tail s1 s2 t : s1 +:+ t = s2 +:+ t -> s1 = s2.
Proof.
  revert s2. induction s1 as [|a s1 IH]; intros [|b s2] Heq; simpl in Heq.
  - done.
  - apply (f_equal String.length) in Heq. simpl in Heq.
    rewrite !append_length in Heq. simpl in Heq. lia.
  - apply (f_equal String.length) in Heq. simpl in Heq.
    rewrite !append_length in Heq. simpl in Heq. lia.
  - injection Heq as -> Heq. f_equal. by apply IH.
Qed.

(** X20.  The fallback names of line 94 tell the pages of a file apart: two
    page numbers get the same fallback name only when they are equal. *)
Theorem fallback_names_distinct (page_number page_number' : nat) :
  V1.file_name_of None page_number = V1.file_name_of None page_number'
  <-> page_number = page_number'.
Proof.
  split; [|by intros ->].
  unfold V1.file_name_of. intros Heq.
  apply (inj (String.append "page_")) in Heq.
  apply append_inv_tail, str_inj in Heq. lia.
Qed.

(** ** Folders and the start of a run *)

Lemma makedirs_spec permitted path folders :
  match makedirs permitted path folders with
  | Ok folders' =>
      (path ∉ folders) /\ permitted path = true /\ folders' = {[path]} ∪ folders
  | Raise e => e = OSError /\ (path ∈ folders \/ permitted path = false)
  end.
Proof.
  unfold makedirs. case_decide; [by auto |].
  destruct (permitted path) eqn:Hp; auto.
Qed.



Lemma create_output_folder_total permitted folder_name folders :
  exists created folders',
    create_output_folder permitted folder_name folders = Ok (created, folders') /\
    folders ⊆ folders' /\
    (folder_name ∈ folders' <-> folder_name ∈ folders \/ permitted folder_name = true).
Proof.
  unfold create_output_folder.
  pose proof (makedirs_spec permitted folder_name folders) as Hmk.
  case_decide as Hin.
  - exists true, folders. split; [done |]. split; [done |]. tauto.
  - destruct (makedirs permitted folder_name folders) as [fs'|e].
    + destruct Hmk as (_ & Hp & ->). exists true, ({[folder_name]} ∪ folders).
      split; [done |]. split; [apply union_subseteq_r |].
      split; [by auto | intros _; by apply elem_of_union_l, elem_of_singleton_2].
    + destruct Hmk as [-> [Hin' | Hp]]; [done |].
      exists false, folders. split; [done |]. split; [done |].
      split; [by auto |]. intros [? | ?]; [done | congruence].
Qed.

(** X23.  [start_convert_pdf] starts the [process_files] thread exactly when
    files and a folder have been selected, on the selected files and the
    normalised folder; the outcome of [create_output_folder] is not looked
    at, so the thread is started also when the output folder does not exist
    and could not be created.  A call that starts no thread changes
    nothing. *)
Theorem start_convert_pdf_starts_iff_selected
    (normalize_path : string -> string) (permitted : string -> bool)
    (selected_files : list string) (selected_folder : string)
    (folders : gset string) :
  let outcome :=
    start_convert_pdf normalize_path permitted selected_files selected_folder
      folders in
  (is_Some outcome.1 <-> selected_files ≠ [] /\ selected_folder ≠ "") /\
  (forall args,
     outcome.1 = Some args ->
     args = (selected_files, normalize_path selected_folder) /\
     (normalize_path selected_folder ∈ outcome.2 <->
      normalize_path selected_folder ∈ folders \/
      permitted (normalize_path selected_folder) = true)) /\
  (outcome.1 = None -> outcome.2 = folders) /\
  folders ⊆ outcome.2.
Proof.
  unfold start_convert_pdf.
  case_decide as Hfiles; simpl.
  { split; [|split; [done | split; [done | done]]].
    split; [by intros [? ?] | by intros [? _]]. }
  case_decide as Hfolder; simpl.
  { split; [|split; [done | split; [done | done]]].
    split; [by intros [? ?] | by intros [_ ?]]. }
  case_decide as Hin; simpl.
  { split; [by eauto |]. split; [|split; [done | done]].
    intros args [= <-]. split; [done |]. split; [by auto | done]. }
  destruct (create_output_folder_total permitted (normalize_path selected_folder)
              folders) as (created & folders' & -> & Hsub & Hiff).
  simpl. split; [by eauto |]. split; [|split; [done | done]].
  intros args [= <-]. split; [done | apply Hiff].
Qed.

(** ** The batch run of version 0.0.1 *)

(** What a call of the function [V1.process_page] that saves its page has
    found. *)
Lemma process_page_saved re_search (templates : templates_t) page_number images
    company file_name :
  V1.process_page re_search templates page_number images
  = Some (company, file_name) ->
  exists pages text,
    images = Ok pages /\ pages !! page_number = Some text /\
    identify_company text templates = Some company /\ company ≠ "" /\
    file_name
    = V1.file_name_of
        (V1.order_number_of
           (V1.extract_data re_search text templates (Some company)))
        page_number.
Proof.
  unfold V1.process_page. destruct images as [pages|e]; [|done].
  destruct (pages !! page_number) as [text|] eqn:Htext; [|done].
  destruct (identify_company text templates) as [c|] eqn:Hc; [|done].
  case_decide; [done |]. intros [= <- <-]. by exists pages, text.
Qed.

Section DirectRun.

Variable re_search : V1.regex_engine.
Variable templates : templates_t.
Variable join : string -> string -> string.
Variable permitted : string -> bool.
Variable output_folder : string.
Variable folders0 : gset string.
Variable docs : list Direct.document.

Local Abbreviation process_page :=
  (Direct.process_page re_search templates join permitted output_folder).
Local Abbreviation step :=
  (Direct.step re_search templates join permitted output_folder).
Local Abbreviation worker_step :=
  (Direct.worker_step re_search templates join permitted output_folder).
Local Abbreviation run :=
  (Direct.run re_search templates join permitted output_folder).
Local Abbreviation run_in_order :=
  (Direct.run_in_order re_search templates join permitted output_folder).
Local Abbreviation saved_as := (Direct.saved_as re_search templates docs).
Local Abbreviation worker_ok :=
  (Direct.worker_ok re_search templates join output_folder docs).
Local Abbreviation invariant :=
  (Direct.invariant re_search templates join output_folder folders0 docs).

Lemma direct_invariant_init : invariant (Direct.init folders0 docs).
Proof.
  split; simpl; try done; try (intros; lia).
  intros folder Hin. by left.
Qed.

Lemma worker_ok_mono nd d d' w :
  Direct.folders d ⊆ Direct.folders d' -> worker_ok nd d w -> worker_ok nd d' w.
Proof.
  intros Hsub. destruct w; simpl; try done.
  intros (Hnd & Hin & Hsaved). split; [done |]. split; [by apply Hsub | done].
Qed.

Lemma saved_as_declared im company file_name :
  saved_as im company file_name ->
  exists r, dict_get templates company = Some r.
Proof.
  intros (doc & _ & _ & Hpp).
  apply process_page_saved in Hpp as (pages & text & _ & _ & Hc & _).
  by eapply identify_company_declared.
Qed.

(** A step of a call keeps what is known of the calls and of the disk. *)
Lemma direct_process_page_ok nd w d w' d' :
  process_page w d = Some (w', d') ->
  worker_ok nd d w ->
  worker_ok nd d' w' /\
  Direct.folders d ⊆ Direct.folders d' /\
  (forall folder,
     folder ∈ Direct.folders d' ->
     folder ∈ Direct.folders d \/
     exists company r,
       folder = join output_folder company /\
       dict_get templates company = Some r) /\
  (forall path im,
     Direct.files d' !! path = Some im ->
     Direct.files d !! path = Some im \/
     exists company file_name,
       saved_as im company file_name /\
       path = join (join output_folder company) file_name /\
       join output_folder company ∈ Direct.folders d').
Proof.
  intros Hstep Hw.
  destruct w as [pn pdf imgs | co fn im | cf fn im | cf fn im |];
    simpl in Hstep.
  - destruct Hw as (Hnd & doc & Hdoc & Hpn & ->).
    destruct (V1.process_page re_search templates pn (Direct.images doc))
      as [[company file_name]|] eqn:Hpp; simplify_eq/=.
    + split; [|by auto]. split; [done |]. by exists doc.
    + by auto.
  - destruct Hw as [Hnd Hsaved].
    case_decide as Hin; simplify_eq/=.
    + split; [|by auto]. split; [done |]. split; [done |]. by exists co.
    + split; [|by auto]. split; [done |]. by exists co.
  - destruct Hw as (Hnd & company & -> & Hsaved).
    pose proof (makedirs_spec permitted (join output_folder company)
                  (Direct.folders d)) as Hmk.
    destruct (makedirs _ _ _) as [folders'|e]; simplify_eq/=; [|by auto].
    destruct Hmk as (Hnot & Hp & ->).
    split; [|split; [|split]].
    + split; [done |].
      split; [by apply elem_of_union_l, elem_of_singleton_2 |]. by exists company.
    + apply union_subseteq_r.
    + intros folder [->%elem_of_singleton | Hin]%elem_of_union; [|by left].
      right. destruct (saved_as_declared _ _ _ Hsaved) as [r Hr].
      by exists company, r.
    + by auto.
  - destruct Hw as (Hnd & Hin & company & -> & Hsaved).
    destruct (permitted _) eqn:Hp; simplify_eq/=; [|by auto].
    split; [done |]. split; [done |]. split; [by auto |].
    intros path im'. destruct (decide (join (join output_folder company) fn = path))
      as [<-|Hne].
    + rewrite lookup_insert_eq. intros [= <-]. right. by exists company, fn.
    + rewrite lookup_insert_ne by done. by auto.
  - done.
Qed.

Lemma direct_process_page_steps w d w' d' :
  process_page w d = Some (w', d') ->
  Direct.worker_steps w' < Direct.worker_steps w.
Proof.
  destruct w as [pn pdf imgs | co fn im | cf fn im | cf fn im |]; simpl;
    [| | | |done].
  - destruct (V1.process_page _ _ _ _) as [[? ?]|]; intros [= <- <-]; simpl; lia.
  - case_decide; intros [= <- <-]; simpl; lia.
  - destruct (makedirs _ _ _); intros [= <- <-]; simpl; lia.
  - destruct (permitted _); intros [= <- <-]; simpl; lia.
Qed.

Lemma direct_invariant_worker_step i c c' :
  invariant c -> worker_step i c = Some c' -> invariant c'.
Proof.
  intros Hinv Hstep. unfold Direct.worker_step in Hstep.
  destruct (Direct.tasks c !! i) as [w|] eqn:Hw; [|done]. simpl in Hstep.
  destruct (process_page w (Direct.fs c)) as [[w' d']|] eqn:Hpp; [|done].
  simpl in Hstep. injection Hstep as <-.
  assert (Hnd : w ≠ Direct.Done) by (by destruct w).
  destruct (direct_process_page_ok (Direct.next_doc c) _ _ _ _ Hpp)
    as (Hw' & Hsub & Hnew & Hfiles').
  { eapply Forall_lookup_1; [apply Hinv | done]. }
  destruct Hinv as [Hdocs Htotal Hcount Hyield Hdone Hcompl Hprog Hcoll Hrep
                      Hfin Hworkers Hfolders Hfolders0 Hfiles].
  split; simpl; try done.
  - by rewrite length_insert.
  - by rewrite length_insert.
  - intros j Hj. rewrite list_lookup_insert_ne; [by apply Hdone |].
    intros ->. rewrite Hdone in Hw by done. congruence.
  - intros Hr. rewrite length_insert. by apply Hrep.
  - apply Forall_insert; [|done].
    eapply Forall_impl; [exact Hworkers |]. intros w0. by apply worker_ok_mono.
  - intros folder Hin. destruct (Hnew folder Hin) as [Hold | Hcat]; [|by right].
    by apply Hfolders.
  - by etrans.
  - intros path im Him. destruct (Hfiles' path im Him) as [Hold | Hsaved]; [|done].
    destruct (Hfiles path im Hold) as (company & fn & ? & ? & ?).
    exists company, fn. split; [done |]. split; [done |]. by apply Hsub.
Qed.

Lemma direct_invariant_main_step c c' :
  invariant c -> Direct.main_step c = Some c' -> invariant c'.
Proof.
  intros [Hdocs Htotal Hcount Hyield Hdone Hcompl Hprog Hcoll Hrep
            Hfin Hworkers Hfolders Hfolders0 Hfiles] Hstep.
  unfold Direct.main_step in Hstep.
  destruct (Direct.finished c) eqn:Hnotfin; [done |].
  destruct (Direct.reporting c) eqn:Hreporting.
  - destruct (Hrep eq_refl) as [Hy Hpaths].
    case_decide as Hlt.
    + destruct (Direct.total_pages c) as [|total'] eqn:Htot.
      { rewrite Hpaths in Hcount. simpl in Hcount. lia. }
      simpl in Hstep. injection Hstep as <-.
      split; simpl; rewrite ?Htot; try done; try lia.
      by rewrite reported_next, Hprog.
    + injection Hstep as <-.
      split; simpl; try done. intros _. split; [done | lia].
  - destruct (Hcoll eq_refl) as [Hzero _].
    case_decide as Hlt.
    + destruct (Direct.tasks c !! Direct.yielded c) as [[]|] eqn:Hw; try done.
      injection Hstep as <-.
      split; simpl; try done; try lia.
      intros i Hi. destruct (decide (i = Direct.yielded c)) as [->|]; [done |].
      apply Hdone. lia.
    + destruct (Direct.pdf_file_paths c) as [|doc rest] eqn:Hpaths;
        injection Hstep as <-.
      * split; simpl; try done. intros _. split; [lia | done].
      * assert (Hdoc : docs !! Direct.next_doc c = Some doc).
        { rewrite <- (Nat.add_0_r (Direct.next_doc c)), <- lookup_drop, <- Hdocs.
          done. }
        split; simpl; try done.
        -- rewrite Nat.add_1_r. erewrite drop_S in Hdocs by done. congruence.
        -- rewrite length_fmap, length_seq. rewrite fmap_cons in Hcount.
           simpl in Hcount. lia.
        -- lia.
        -- intros i Hi. lia.
        -- apply Forall_lookup. intros i w Hw.
           rewrite list_lookup_fmap in Hw.
           destruct (seq 0 (Direct.page_count doc) !! i) as [pn|] eqn:Hpn;
             simplify_eq/=.
           apply lookup_seq in Hpn as [-> Hi].
           split; [lia |]. by exists doc.
Qed.

Lemma direct_invariant_step a c c' :
  invariant c -> step a c = Some c' -> invariant c'.
Proof.
  destruct a as [|i];
    [apply direct_invariant_main_step | apply direct_invariant_worker_step].
Qed.



(** *** Termination *)

Lemma direct_worker_steps_insert (ws : list Direct.worker) i w w' :
  ws !! i = Some w -> Direct.worker_steps w' < Direct.worker_steps w ->
  sum_list (Direct.worker_steps <$> <[i := w']> ws)
  < sum_list (Direct.worker_steps <$> ws).
Proof.
  revert i. induction ws as [|w0 ws IH]; intros [|i] Hi Hlt; simplify_eq/=.
  - lia.
  - specialize (IH i Hi Hlt). lia.
Qed.

Lemma direct_worker_steps_dispatch nd imgs (pns : list nat) :
  sum_list (Direct.worker_steps <$>
              ((fun page_number => Direct.Start page_number nd imgs) <$> pns))
  = 4 * length pns.
Proof.
  induction pns as [|pn pns IH]; [done |]. csimpl. rewrite IH. simpl. lia.
Qed.

Lemma direct_measure_step a c c' :
  step a c = Some c' -> Direct.measure c' < Direct.measure c.
Proof.
  intros Hstep. destruct a as [|i]; simpl in Hstep.
  - unfold Direct.main_step in Hstep.
    destruct (Direct.finished c) eqn:Hnotfin; [done |].
    destruct (Direct.reporting c) eqn:Hreporting.
    + case_decide as Hlt.
      * destruct (truediv _ _); injection Hstep as <-;
          unfold Direct.measure; rewrite Hnotfin, Hreporting; simpl; lia.
      * injection Hstep as <-.
        unfold Direct.measure; rewrite Hnotfin, Hreporting; simpl; lia.
    + case_decide as Hlt.
      * destruct (Direct.tasks c !! Direct.yielded c) as [[]|] eqn:Hw; try done.
        injection Hstep as <-.
        unfold Direct.measure; rewrite Hnotfin, Hreporting; simpl; lia.
      * destruct (Direct.pdf_file_paths c) as [|doc rest] eqn:Hpaths;
          injection Hstep as <-;
          unfold Direct.measure; rewrite Hnotfin, Hreporting; simpl.
        -- lia.
        -- pose proof (direct_worker_steps_dispatch (Direct.next_doc c)
                         (Direct.images doc) (seq 0 (Direct.page_count doc)))
             as Hsum.
           rewrite length_seq in Hsum.
           rewrite Hsum, length_fmap, length_seq, Hpaths, fmap_cons. simpl. lia.
  - unfold Direct.worker_step in Hstep.
    destruct (Direct.tasks c !! i) as [w|] eqn:Hw; [|done]. simpl in Hstep.
    destruct (process_page w (Direct.fs c)) as [[w' d']|] eqn:Hpp; [|done].
    simpl in Hstep. injection Hstep as <-.
    pose proof (direct_process_page_steps _ _ _ _ Hpp) as Hlt.
    pose proof (direct_worker_steps_insert _ _ _ _ Hw Hlt).
    unfold Direct.measure. simpl. rewrite length_insert. lia.
Qed.

Lemma direct_pick_enabled c :
  Direct.finished c = false ->
  exists c', step (Direct.pick c) c = Some c'.
Proof.
  intros Hnotfin. unfold Direct.pick.
  destruct (list_find _ (Direct.tasks c)) as [[i w]|] eqn:Hfind.
  - apply list_find_Some in Hfind as (Hw & Hrun & _).
    simpl. unfold Direct.worker_step. rewrite Hw. simpl.
    destruct w; try done; simpl; eauto.
    + destruct (V1.process_page _ _ _ _) as [[? ?]|]; simpl; eauto.
    + case_decide; simpl; eauto.
    + destruct (makedirs _ _ _); simpl; eauto.
    + destruct (permitted _); simpl; eauto.
  - apply list_find_None in Hfind. simpl. unfold Direct.main_step.
    rewrite Hnotfin. destruct (Direct.reporting c).
    + case_decide; [destruct (truediv _ _) |]; eauto.
    + case_decide as Hlt.
      * destruct (lookup_lt_is_Some_2 _ _ Hlt) as [w Hw]. rewrite Hw.
        eapply Forall_lookup_1 in Hfind; [|done].
        destruct w; try done. eauto.
      * destruct (Direct.pdf_file_paths c); eauto.
Qed.



Lemma direct_measure_run sched c c' :
  run sched c = Some c' -> length sched + Direct.measure c' <= Direct.measure c.
Proof.
  revert c. induction sched as [|a sched IH]; intros c Hrun; simpl in Hrun.
  - injection Hrun as <-. simpl. lia.
  - destruct (step a c) as [c1|] eqn:Hstep; [|done]. simpl in Hrun.
    specialize (IH c1 Hrun). pose proof (direct_measure_step _ _ _ Hstep).
    simpl. lia.
Qed.

Lemma direct_pages_sum (ds : list Direct.document) :
  sum_list ((fun doc => 1 + 6 * Direct.page_count doc) <$> ds)
  = length ds + 6 * sum_list (Direct.page_count <$> ds).
Proof.
  induction ds as [|doc ds IH]; [done |].
  rewrite !fmap_cons. cbn [sum_list length]. rewrite IH. unfold id. lia.
Qed.

Lemma direct_measure_init :
  Direct.measure (Direct.init folders0 docs)
  = 2 + length docs + 6 * sum_list (Direct.page_count <$> docs).
Proof.
  unfold Direct.measure, Direct.init.
  cbn [Direct.tasks Direct.finished Direct.reporting Direct.future_results
       Direct.completed_pages Direct.yielded Direct.pdf_file_paths].
  rewrite direct_pages_sum. cbn [fmap list_fmap sum_list length]. lia.
Qed.




(** X26.  [process_files] of version 0.0.1 terminates under every schedule:
    over files with [n] pages in all, a run takes at most
    [2 + number of files + 6 n] steps of its threads. *)
Theorem direct_run_length_bounded sched c :
  run sched (Direct.init folders0 docs) = Some c ->
  length sched <= 2 + length docs + 6 * sum_list (Direct.page_count <$> docs).
Proof.
  intros Hrun. apply direct_measure_run in Hrun.
  rewrite direct_measure_init in Hrun. lia.
Qed.

(** *** Runs in which no two calls overlap *)

Local Abbreviation sequential :=
  (Direct.sequential re_search templates join output_folder docs).

Lemma sequential_init : sequential (Direct.init folders0 docs).
Proof.
  split; simpl; try done.
  intros im company file_name Hhandled. unfold Direct.handled in Hhandled.
  simpl in Hhandled. lia.
Qed.

Lemma sequential_main_step c c' :
  invariant c -> sequential c -> Direct.main_step c = Some c' -> sequential c'.
Proof.
  intros Hinv [Htasks Hworkers Hlength Hmk Hsaved] Hstep.
  unfold Direct.main_step in Hstep.
  destruct (Direct.finished c) eqn:Hnotfin; [done |].
  destruct (Direct.reporting c) eqn:Hreporting.
  - case_decide as Hlt.
    + destruct (truediv _ _); injection Hstep as <-; by split.
    + injection Hstep as <-. by split.
  - case_decide as Hlt.
    + destruct (Direct.tasks c !! Direct.yielded c) as [[]|] eqn:Hw; try done.
      injection Hstep as <-. by split.
    + destruct (Direct.pdf_file_paths c) as [|doc rest] eqn:Hpaths;
        injection Hstep as <-; [by split |].
      assert (Hdoc : docs !! Direct.next_doc c = Some doc).
      { rewrite <- (Nat.add_0_r (Direct.next_doc c)), <- lookup_drop.
        by rewrite <- (Direct.inv_docs _ _ _ _ _ _ _ Hinv), Hpaths. }
      split; simpl.
      * intros i j wi wj Hij _ Hj. right.
        rewrite list_lookup_fmap in Hj.
        destruct (seq 0 (Direct.page_count doc) !! j); by simplify_eq/=.
      * intros i w Hw. rewrite list_lookup_fmap in Hw.
        destruct (seq 0 (Direct.page_count doc) !! i) as [pn|] eqn:Hpn;
          simplify_eq/=.
        apply lookup_seq in Hpn as [-> _]. split; [done | lia].
      * intros doc' _. rewrite Nat.add_1_r. simpl. rewrite Hdoc.
        intros [= <-]. by rewrite length_fmap, length_seq.
      * intros i cf fn im Hw. rewrite list_lookup_fmap in Hw.
        destruct (seq 0 (Direct.page_count doc) !! i); by simplify_eq/=.
      * intros im company file_name Hhandled Hsaved'.
        apply Hsaved; [|done].
        unfold Direct.handled in Hhandled. simpl in Hhandled.
        destruct Hhandled as [Hlt' | [_ Hdone]].
        -- destruct (decide (S (V2.img_doc im) = Direct.next_doc c)) as [Heq|];
             [|left; lia].
           right. split; [done |].
           destruct Hsaved' as (doc' & Hdoc' & Hpage & _).
           assert (Hlen : length (Direct.tasks c) = Direct.page_count doc').
           { apply Hlength; [lia |]. by rewrite <- Heq. }
           apply (Direct.inv_done _ _ _ _ _ _ _ Hinv).
           pose proof (Direct.inv_yielded _ _ _ _ _ _ _ Hinv). lia.
        -- rewrite list_lookup_fmap in Hdone.
           destruct (seq 0 (Direct.page_count doc) !! V2.img_page im);
             by simplify_eq/=.
Qed.

Lemma process_page_files_mono w d w' d' path im :
  process_page w d = Some (w', d') ->
  Direct.files d !! path = Some im ->
  Direct.files d' !! path = Some im \/
  exists company_folder file_name im',
    w = Direct.Save company_folder file_name im' /\
    path = join company_folder file_name /\
    Direct.files d' !! path = Some im'.
Proof.
  intros Hstep Hpath.
  destruct w as [pn pdf imgs | co fn im0 | cf fn im0 | cf fn im0 |];
    simpl in Hstep.
  - destruct (V1.process_page _ _ _ _) as [[? ?]|]; simplify_eq/=; by left.
  - case_decide; simplify_eq/=; by left.
  - destruct (makedirs _ _ _); simplify_eq/=; by left.
  - destruct (permitted _); simplify_eq/=; [|by left].
    destruct (decide (join cf fn = path)) as [<-|Hne].
    + right. exists cf, fn, im0. by rewrite lookup_insert_eq.
    + left. by rewrite lookup_insert_ne.
  - done.
Qed.

Hypothesis Hpermitted : forall path, permitted path = true.

Lemma sequential_worker_step i c c' :
  invariant c -> sequential c ->
  Direct.pick c = Direct.Worker i ->
  worker_step i c = Some c' ->
  sequential c'.
Proof.
  intros Hinv [Htasks Hworkers Hlength Hmk Hsaved] Hpick Hstep.
  unfold Direct.pick in Hpick.
  destruct (list_find _ (Direct.tasks c)) as [[i0 w0]|] eqn:Hfind; [|done].
  injection Hpick as ->.
  apply list_find_Some in Hfind as (Hw0 & Hrunning & Hbefore).
  unfold Direct.worker_step in Hstep. rewrite Hw0 in Hstep. simpl in Hstep.
  destruct (process_page w0 (Direct.fs c)) as [[w' d']|] eqn:Hpp; [|done].
  simpl in Hstep. injection Hstep as <-.
  assert (Hok : worker_ok (Direct.next_doc c) (Direct.fs c) w0).
  { eapply Forall_lookup_1; [apply Hinv | done]. }
  destruct (direct_process_page_ok _ _ _ _ _ Hpp Hok) as (Hok' & Hsub & _ & _).
  assert (Hearlier : forall j, j < i -> Direct.tasks c !! j = Some Direct.Done).
  { intros j Hj. destruct (lookup_lt_is_Some_2 (Direct.tasks c) j) as [wj Hwj].
    { apply lookup_lt_Some in Hw0. lia. }
    specialize (Hbefore j wj Hwj Hj). rewrite Hwj. f_equal.
    destruct wj; try done. }
  assert (Hlater : forall j wj, i < j -> Direct.tasks c !! j = Some wj ->
                                Direct.started wj = false).
  { intros j wj Hj Hwj.
    destruct (Htasks i j w0 wj Hj Hw0 Hwj) as [-> | ?]; done. }
  assert (Hat : Direct.worker_at (Direct.next_doc c) i w0) by by apply Hworkers.
  split; simpl.
  - intros a b wa wb Hab Ha Hb.
    destruct (decide (a = i)) as [->|Hai].
    + right. rewrite list_lookup_insert_ne in Hb by lia. by eapply Hlater.
    + rewrite list_lookup_insert_ne in Ha by done.
      destruct (decide (b = i)) as [->|Hbi].
      * left. rewrite Hearlier in Ha by lia. congruence.
      * rewrite list_lookup_insert_ne in Hb by done. by eapply Htasks.
  - intros j w Hw. destruct (decide (j = i)) as [->|Hji].
    + rewrite list_lookup_insert_eq in Hw by (by eapply lookup_lt_Some).
      injection Hw as <-.
      destruct w0 as [pn pdf imgs | co fn im0 | cf fn im0 | cf fn im0 |];
        simpl in Hpp.
      * destruct (V1.process_page _ _ _ _) as [[? ?]|]; simplify_eq/=; done.
      * case_decide; simplify_eq/=; done.
      * destruct (makedirs _ _ _); simplify_eq/=; done.
      * destruct (permitted _); simplify_eq/=; done.
      * done.
    + rewrite list_lookup_insert_ne in Hw by done. by apply Hworkers.
  - intros doc Hnd Hdoc. rewrite length_insert. by apply Hlength.
  - intros j cf fn im Hw. destruct (decide (j = i)) as [->|Hji].
    + rewrite list_lookup_insert_eq in Hw by (by eapply lookup_lt_Some).
      injection Hw as ->.
      destruct w0 as [pn pdf imgs | co fn0 im0 | cf0 fn0 im0 | cf0 fn0 im0 |];
        simpl in Hpp.
      * destruct (V1.process_page _ _ _ _) as [[? ?]|]; simplify_eq/=.
      * case_decide; by simplify_eq/=.
      * destruct (makedirs _ _ _); simplify_eq/=.
      * destruct (permitted _); simplify_eq/=.
      * done.
    + rewrite list_lookup_insert_ne in Hw by done.
      destruct (decide (j < i)) as [Hlt|Hge].
      * rewrite Hearlier in Hw by done. done.
      * apply Hlater in Hw; [done | lia].
  - intros im company file_name Hhandled Hsaved'.
    assert (Hold : Direct.handled c im ->
                   join output_folder company ∈ Direct.folders d' /\
                   exists im',
                     Direct.files d' !! join (join output_folder company) file_name
                     = Some im' /\
                     (im' = im \/ V2.page_before im im')).
    { intros Hh. destruct (Hsaved im company file_name Hh Hsaved')
        as (Hfolder & im' & Him' & Horder).
      split; [by apply Hsub |].
      destruct (process_page_files_mono _ _ _ _ _ _ Hpp Him')
        as [Hkeep | (cf & fn & im0 & -> & Hpath & Hnew)].
      - by exists im'.
      - exists im0. split; [done |]. right.
        simpl in Hat. destruct Hat as [Hpage0 Hdoc0].
        destruct Hh as [Hlt | [Heq Hdone]].
        + left. lia.
        + right. split; [lia |].
          destruct (decide (V2.img_page im < V2.img_page im0)) as [|Hge];
            [done |].
          destruct (decide (V2.img_page im = i)) as [Heqi|Hnei].
          * rewrite Heqi, Hw0 in Hdone. done.
          * apply Hlater in Hdone; [done | lia]. }
    unfold Direct.handled in Hhandled. simpl in Hhandled.
    destruct Hhandled as [Hlt | [Heq Hdone]]; [apply Hold; by left |].
    destruct (decide (V2.img_page im = i)) as [Heqi|Hnei].
    + rewrite Heqi in Hdone.
      rewrite list_lookup_insert_eq in Hdone by (by eapply lookup_lt_Some).
      injection Hdone as ->.
      destruct Hsaved' as (doc & Hdoc & Hpage & Hfn).
      destruct w0 as [pn pdf imgs | co fn0 im0 | cf0 fn0 im0 | cf0 fn0 im0 |];
        simpl in Hpp.
      * destruct Hat as [-> Hpdf].
        destruct Hok as (_ & doc0 & Hdoc0 & _ & ->).
        assert (pdf = V2.img_doc im) as -> by lia.
        rewrite Hdoc in Hdoc0. injection Hdoc0 as <-.
        rewrite <- Heqi, Hfn in Hpp. done.
      * case_decide; simplify_eq/=.
      * pose proof (makedirs_spec permitted cf0 (Direct.folders (Direct.fs c)))
          as Hspec.
        destruct (makedirs _ _ _) as [?|e]; simplify_eq/=.
        destruct Hspec as [_ [Hin | Hp]].
        -- by apply Hmk in Hw0.
        -- rewrite Hpermitted in Hp. done.
      * rewrite Hpermitted in Hpp. simplify_eq/=.
        destruct Hat as [Hpage0 Hdoc0].
        destruct Hok as (_ & Hin & company0 & -> & doc0 & Hd0 & _ & Hfn0).
        assert (im0 = im) as ->.
        { destruct im0, im; simpl in *. f_equal; lia. }
        rewrite Hdoc in Hd0. injection Hd0 as <-.
        rewrite Hfn in Hfn0. injection Hfn0 as <- <-.
        split; [done |]. exists im. rewrite lookup_insert_eq. by auto.
      * done.
    + rewrite list_lookup_insert_ne in Hdone by done.
      apply Hold. by right.
Qed.

Lemma sequential_run_in_order fuel c :
  invariant c -> sequential c ->
  invariant (run_in_order fuel c) /\ sequential (run_in_order fuel c) /\
  (Direct.measure c <= fuel -> Direct.finished (run_in_order fuel c) = true).
Proof.
  revert c. induction fuel as [|fuel IH]; intros c Hinv Hseq; simpl.
  - split; [done |]. split; [done |]. intros Hm.
    destruct (Direct.finished c) eqn:Hfin; [done |].
    unfold Direct.measure in Hm. rewrite Hfin in Hm.
    destruct (Direct.reporting c); lia.
  - destruct (step (Direct.pick c) c) as [c1|] eqn:Hstep.
    + assert (Hinv1 : invariant c1) by by eapply direct_invariant_step.
      assert (Hseq1 : sequential c1).
      { destruct (Direct.pick c) as [|i] eqn:Hpick.
        - exact (sequential_main_step c c1 Hinv Hseq Hstep).
        - exact (sequential_worker_step i c c1 Hinv Hseq Hpick Hstep). }
      destruct (IH c1 Hinv1 Hseq1) as (? & ? & Hfin).
      split; [done |]. split; [done |]. intros Hm. apply Hfin.
      pose proof (direct_measure_step _ _ _ Hstep). lia.
    + split; [done |]. split; [done |]. intros _.
      destruct (Direct.finished c) eqn:Hfin; [done |].
      destruct (direct_pick_enabled c Hfin) as [c1 Hc1]. congruence.
Qed.

(** X27.  When every write is permitted and the calls return one after the
    other in page order, version 0.0.1 saves every matched page: the run
    finishes, the folder of the page's category exists, and the path
    computed for the page holds the page itself or a later page of the
    selection that was written to the same path. *)
Theorem sequential_run_saves_every_page fuel d i doc company file_name :
  2 + length docs + 6 * sum_list (Direct.page_count <$> docs) <= fuel ->
  docs !! d = Some doc ->
  i < Direct.page_count doc ->
  V1.process_page re_search templates i (Direct.images doc)
  = Some (company, file_name) ->
  Direct.finished (run_in_order fuel (Direct.init folders0 docs)) = true /\
  join output_folder company
  ∈ Direct.folders (Direct.fs (run_in_order fuel (Direct.init folders0 docs))) /\
  exists im,
    Direct.files (Direct.fs (run_in_order fuel (Direct.init folders0 docs)))
    !! join (join output_folder company) file_name = Some im /\
    (im = {| V2.img_doc := d; V2.img_page := i |} \/
     V2.page_before {| V2.img_doc := d; V2.img_page := i |} im).
Proof.
  intros Hfuel Hdoc Hi Hpp.
  destruct (sequential_run_in_order fuel (Direct.init folders0 docs)
              direct_invariant_init sequential_init) as (Hinv & Hseq & Hfin).
  rewrite direct_measure_init in Hfin. specialize (Hfin Hfuel).
  split; [done |].
  set (c := run_in_order fuel (Direct.init folders0 docs)) in *.
  apply (Direct.sq_saved _ _ _ _ _ _ Hseq
           {| V2.img_doc := d; V2.img_page := i |} company file_name);
    [|by exists doc].
  destruct (Direct.inv_finished _ _ _ _ _ _ _ Hinv Hfin) as [Hrep _].
  destruct (Direct.inv_reporting _ _ _ _ _ _ _ Hinv Hrep) as [Hy Hpaths].
  pose proof (Direct.inv_docs _ _ _ _ _ _ _ Hinv) as Hdocs.
  rewrite Hpaths in Hdocs. symmetry in Hdocs. apply drop_nil_inv in Hdocs.
  apply lookup_lt_Some in Hdoc as Hd.
  unfold Direct.handled; simpl.
  destruct (decide (S d = Direct.next_doc c)) as [Heq|]; [|left; lia].
  right. split; [done |].
  assert (Hlen : length (Direct.tasks c) = Direct.page_count doc).
  { apply (Direct.sq_length _ _ _ _ _ _ Hseq); [lia |]. by rewrite <- Heq. }
  apply (Direct.inv_done _ _ _ _ _ _ _ Hinv). lia.
Qed.

(** X28.  The test of line 49 and the [makedirs] of line 50 are separate
    steps.  When two pages of a file are matched to a category whose folder
    does not exist yet, there is a run, every write being permitted, in
    which both calls find the folder missing: the second [makedirs] raises,
    the handler of line 110 swallows the exception, and the run ends with
    both pages counted and only the first one on the disk. *)
Theorem folder_race_loses_page doc company file_name0 file_name1 :
  Direct.page_count doc = 2 ->
  V1.process_page re_search templates 0 (Direct.images doc)
  = Some (company, file_name0) ->
  V1.process_page re_search templates 1 (Direct.images doc)
  = Some (company, file_name1) ->
  join output_folder company ∉ folders0 ->
  exists sched c,
    run sched (Direct.init folders0 [doc]) = Some c /\
    Direct.finished c = true /\
    Direct.completed_pages c = 2 /\
    Direct.folders (Direct.fs c) = {[join output_folder company]} ∪ folders0 /\
    Direct.files (Direct.fs c)
    = {[join (join output_folder company) file_name0
        := {| V2.img_doc := 0; V2.img_page := 0 |}]}.
Proof.
  intros Hcount Hpage0 Hpage1 Hmissing.
  exists [Direct.Main;
          Direct.Worker 0; Direct.Worker 1; Direct.Worker 0; Direct.Worker 1;
          Direct.Worker 0; Direct.Worker 1; Direct.Worker 0;
          Direct.Main; Direct.Main; Direct.Main; Direct.Main; Direct.Main;
          Direct.Main].
  eexists. split.
  - unfold Direct.init.
    cbn -[makedirs V1.process_page]. rewrite Hcount.
    cbn -[makedirs V1.process_page]. rewrite decide_False by lia.
    cbn -[makedirs V1.process_page]. rewrite Hpage0.
    cbn -[makedirs V1.process_page]. rewrite Hpage1.
    cbn -[makedirs V1.process_page]. rewrite decide_False by done.
    cbn -[makedirs V1.process_page]. rewrite decide_False by done.
    cbn -[makedirs V1.process_page]. unfold makedirs at 1.
    rewrite decide_False by done. rewrite Hpermitted.
    cbn -[makedirs V1.process_page]. unfold makedirs at 1.
    rewrite decide_True by (by apply elem_of_union_l, elem_of_singleton_2).
    cbn -[makedirs V1.process_page]. rewrite Hpermitted.
    cbn -[makedirs V1.process_page]. rewrite decide_True by lia.
    cbn. rewrite decide_True by lia.
    cbn. rewrite decide_False by lia.
    cbn. rewrite decide_True by lia.
    cbn. rewrite decide_True by lia.
    cbn. rewrite decide_False by lia.
    reflexivity.
  - simpl. split; [done |]. split; [done |]. split; [done |].
    by rewrite insert_empty.
Qed.

End DirectRun.

(** ** Instances of the properties of the extraction and of version 0.0.1 *)




Lemma direct_run_length_bounded_witness :
  Direct.run Samples.literal_search Samples.acme_orders DirectSamples.join_slash
    DirectSamples.permit_all "out" DirectSamples.one_after_the_other
    (Direct.init ∅ [DirectSamples.two_orders])
  = Some DirectSamples.one_after_the_other_end /\
  length DirectSamples.one_after_the_other
  <= 2 + length [DirectSamples.two_orders]
     + 6 * sum_list (Direct.page_count <$> [DirectSamples.two_orders]).
Proof.
  assert (Hrun : Direct.run Samples.literal_search Samples.acme_orders
                   DirectSamples.join_slash DirectSamples.permit_all "out"
                   DirectSamples.one_after_the_other
                   (Direct.init ∅ [DirectSamples.two_orders])
                 = Some DirectSamples.one_after_the_other_end)
    by reflexivity.
  split; [exact Hrun |].
  exact (direct_run_length_bounded Samples.literal_search Samples.acme_orders
           DirectSamples.join_slash DirectSamples.permit_all "out" ∅
           [DirectSamples.two_orders] DirectSamples.one_after_the_other
           DirectSamples.one_after_the_other_end Hrun).
Defined.

Lemma sequential_run_saves_every_page_witness :
  (forall path, DirectSamples.permit_all path = true) /\
  V1.process_page Samples.literal_search Samples.acme_orders 0
    (Direct.images DirectSamples.two_orders) = Some ("Acme", "page_1.png") /\
  Direct.finished
    (Direct.run_in_order Samples.literal_search Samples.acme_orders
       DirectSamples.join_slash DirectSamples.permit_all "out" 15
       (Direct.init ∅ [DirectSamples.two_orders])) = true /\
  exists im,
    Direct.files
      (Direct.fs
         (Direct.run_in_order Samples.literal_search Samples.acme_orders
            DirectSamples.join_slash DirectSamples.permit_all "out" 15
            (Direct.init ∅ [DirectSamples.two_orders])))
    !! DirectSamples.join_slash (DirectSamples.join_slash "out" "Acme")
         "page_1.png" = Some im.
Proof.
  assert (Hpermitted : forall path, DirectSamples.permit_all path = true)
    by (intros path; reflexivity).
  assert (Hfuel : 2 + length [DirectSamples.two_orders]
                  + 6 * sum_list (Direct.page_count <$> [DirectSamples.two_orders])
                  <= 15)
    by (simpl; lia).
  assert (Hdoc : [DirectSamples.two_orders] !! 0 = Some DirectSamples.two_orders)
    by reflexivity.
  assert (Hpage : 0 < Direct.page_count DirectSamples.two_orders)
    by (simpl; lia).
  assert (Hsaved : V1.process_page Samples.literal_search Samples.acme_orders 0
                     (Direct.images DirectSamples.two_orders)
                   = Some ("Acme", "page_1.png"))
    by reflexivity.
  split; [exact Hpermitted |]. split; [exact Hsaved |].
  destruct (sequential_run_saves_every_page Samples.literal_search
              Samples.acme_orders DirectSamples.join_slash
              DirectSamples.permit_all "out" ∅ [DirectSamples.two_orders]
              Hpermitted 15 0 0 DirectSamples.two_orders "Acme" "page_1.png"
              Hfuel Hdoc Hpage Hsaved)
    as (Hfinished & _ & im & Hfile & _).
  split; [exact Hfinished |]. exists im. exact Hfile.
Defined.

Lemma folder_race_loses_page_witness :
  (forall path, DirectSamples.permit_all path = true) /\
  (DirectSamples.join_slash "out" "Acme" ∉ (∅ : gset string)) /\
  exists sched c,
    Direct.run Samples.literal_search Samples.acme_orders DirectSamples.join_slash
      DirectSamples.permit_all "out" sched
      (Direct.init ∅ [DirectSamples.two_orders]) = Some c /\
    Direct.finished c = true /\
    Direct.completed_pages c = 2 /\
    Direct.files (Direct.fs c)
    = {[DirectSamples.join_slash (DirectSamples.join_slash "out" "Acme")
          "page_1.png" := {| V2.img_doc := 0; V2.img_page := 0 |}]}.
Proof.
  assert (Hpermitted : forall path, DirectSamples.permit_all path = true)
    by (intros path; reflexivity).
  assert (Hmissing : DirectSamples.join_slash "out" "Acme" ∉ (∅ : gset string))
    by apply not_elem_of_empty.
  assert (Hcount : Direct.page_count DirectSamples.two_orders = 2)
    by reflexivity.
  assert (Hpage0 : V1.process_page Samples.literal_search Samples.acme_orders 0
                     (Direct.images DirectSamples.two_orders)
                   = Some ("Acme", "page_1.png"))
    by reflexivity.
  assert (Hpage1 : V1.process_page Samples.literal_search Samples.acme_orders 1
                     (Direct.images DirectSamples.two_orders)
                   = Some ("Acme", "PO-.png"))
    by reflexivity.
  split; [exact Hpermitted |]. split; [exact Hmissing |].
  destruct (folder_race_loses_page Samples.literal_search Samples.acme_orders
              DirectSamples.join_slash DirectSamples.permit_all "out" ∅
              Hpermitted DirectSamples.two_orders "Acme" "page_1.png" "PO-.png"
              Hcount Hpage0 Hpage1 Hmissing)
    as (sched & c & Hrun & Hfinished & Hcompleted & _ & Hfiles).
  exists sched, c.
  split; [exact Hrun |]. split; [exact Hfinished |].
  split; [exact Hcompleted | exact Hfiles].
Defined.
